(** * dSGP4: the Newton solver that recovers a TLE from a propagated state

    Shallow embedding of [dsgp4/newton_method.py]: [initial_guess],
    [update_TLE] and [newton_method].

    Numbers.  The module sets [torch.set_default_dtype(torch.float64)] and
    converts every tensor entry with [float(...)], so a scalar is an IEEE
    binary64 value: Rocq's primitive [float].  The one unit conversion of
    the file is written once over an interface of arithmetic ([Arith]) and
    read both over [float] (what runs) and over [R] (exact arithmetic).

    Collaborators.  The SGP4 propagator, its reverse-mode gradient, the
    Cartesian-to-elements routine, the date helpers (which can raise), the
    TLE constructor (what it rejects, and what the object it builds holds)
    and [numpy.linalg.inv] are not part of this file of the repository;
    they are the fields of the class [Collaborators]. *)

From Stdlib Require Import String ZArith List Bool Lia.
From Stdlib Require Import Floats.
From Stdlib Require Import Reals Lra.
Import ListNotations.

(** ** Exceptions and fallible computations *)

(** The exceptions that can leave the three functions.  [IndexError] is
    Python's own (an index past the end of the parameter vector),
    [LinAlgError] is numpy's ("Singular matrix"), [ValueError] and
    [OverflowError] are those of [datetime] (a [timedelta] of NaN or of too
    many days, a date out of range); the others name the failures of the
    collaborators.  [InvalidElementError] is listed because the
    specification names it. *)
Inductive exn : Type :=
| IndexError
| LinAlgError
| ValueError
| OverflowError
| PropagationError
| ConversionError
| InvalidTLEError
| InvalidElementError.

Inductive result (A : Type) : Type :=
| Ok (a : A)
| Raise (e : exn).
Arguments Ok {A} a.
Arguments Raise {A} e.

Definition bind {A B : Type} (m : result A) (k : A -> result B) : result B :=
  match m with
  | Ok a => k a
  | Raise e => Raise e
  end.

Declare Scope result_scope.
Delimit Scope result_scope with result.
Notation "x <- m ;; k" := (bind m (fun x => k))
  (at level 61, m at next level, right associativity) : result_scope.
Notation "' p <- m ;; k" := (bind m (fun x => match x with p => k end))
  (at level 61, p pattern, m at next level, right associativity) : result_scope.
Open Scope result_scope.

(** ** Arithmetic interface and the mean-motion conversion *)

Class Arith (A : Type) : Type := {
  ofZ : Z -> A;
  mul : A -> A -> A;
  div : A -> A -> A;
  pi : A
}.

(** [np.pi] is the binary64 value 3.141592653589793. *)
Definition np_pi : float := 0x1.921fb54442d18p+1%float.

#[export] Instance float_Arith : Arith float := {
  ofZ z := PrimFloat.of_uint63 (Uint63.of_Z z);
  mul := PrimFloat.mul;
  div := PrimFloat.div;
  pi := np_pi
}.

#[export] Instance R_Arith : Arith R := {
  ofZ := IZR;
  mul := Rmult;
  div := Rdiv;
  pi := PI
}.

Section Conversion.
Context {A : Type} `{Arith A}.

(** [xpdotp=1440.0/(2.0 *np.pi)] *)
Definition xpdotp : A := div (ofZ 1440) (mul (ofZ 2) pi).

(** Lines 92-93 of [update_TLE]:
    [no_kozai=float(y0[7])*xpdotp] and
    [tle_elements['mean_motion']=no_kozai*np.pi/43200.0]. *)
Definition mean_motion_of_no_kozai (y7 : A) : A :=
  let no_kozai := mul y7 xpdotp in
  div (mul no_kozai pi) (ofZ 43200).

(** Modelled from the spec: the conversion from the TLE record's mean
    motion to the parameter vector's [no_kozai] is done inside the TLE
    class, which is not in this file; the formula is the one the spec
    gives ("scaled by 1440/(2π)" against "scaled by π/43200"), and the one
    left as a comment in [initial_guess]:
    [mean_motion/(np.pi/43200.0)/xpdotp]. *)
Definition no_kozai_of_mean_motion (m : A) : A :=
  div (div m (div pi (ofZ 43200))) xpdotp.
End Conversion.

(** ** Data model *)

(** The parameter vector: a one-dimensional float64 tensor. *)
Definition vec : Type := list float.

(** A two-dimensional numpy array, as the list of its rows. *)
Definition matrix : Type := list (list float).

(** The propagated state: a 2x3 array, row 0 the position, row 1 the
    velocity. *)
Definition vec3 : Type := (float * float * float)%type.
Definition state : Type := (vec3 * vec3)%type.

(** [s[a][b]] *)
Definition entry (s : state) (a b : nat) : float :=
  let '(x, y, z) := match a with O => fst s | _ => snd s end in
  match b with
  | O => x
  | 1%nat => y
  | _ => z
  end.

(** [target_state.detach().numpy()*1e3] *)
Definition scale (s : state) (c : float) : state :=
  let m := fun w : vec3 => let '(x, y, z) := w in ((x * c)%float, (y * c)%float, (z * c)%float) in
  (m (fst s), m (snd s)).

(** The dictionary [tle_elements] that [kessler.tle.TLE] is built from: one
    field per key that [update_TLE] and [initial_guess] write. *)
Record tle_elements : Type := {
  mean_motion : float;
  b_star : float;
  raan : float;
  eccentricity : float;
  argument_of_perigee : float;
  inclination : float;
  mean_anomaly : float;
  mean_motion_first_derivative : float;
  mean_motion_second_derivative : float;
  epoch_days : float;
  epoch_year : Z;
  classification : string;
  satellite_catalog_number : Z;
  ephemeris_type : Z;
  international_designator : string;
  revolution_number_at_epoch : Z;
  element_number : Z
}.

(** A [kessler.tle.TLE] object: its attributes ([old_tle.epoch_days],
    ...), under the names of the keys it is built from.  What the
    attributes are for a given dictionary is the constructor's business
    ([tle_object] below). *)
Record TLE : Type := mkTLE { data :> tle_elements }.

(** The attributes [_bstar], ..., [_nodeo] that the TLE object derives from
    its fields, in the units the propagator works in. *)
Record sgp4_fields : Type := {
  _bstar : float;
  _ndot : float;
  _nddot : float;
  _ecco : float;
  _argpo : float;
  _inclo : float;
  _mo : float;
  _no_kozai : float;
  _nodeo : float
}.

(** What [kessler.util.from_cartesian_to_tle_elements] returns: the six
    classical elements, under the keys of the TLE dictionary. *)
Module Conv.
Record elements : Type := {
  mean_motion : float;
  eccentricity : float;
  inclination : float;
  raan : float;
  argument_of_perigee : float;
  mean_anomaly : float
}.
End Conv.

(** ** The collaborators *)

Class Collaborators : Type := {
  (** [sgp4(tle_0, x)] *)
  sgp4 : TLE -> float -> result state;
  (** [kessler.util.from_cartesian_to_tle_elements] *)
  from_cartesian_to_tle_elements : state -> result Conv.elements;
  (** [util.from_year_day_to_date], [+ datetime.timedelta(days=...)] (both
      raise on what [datetime] cannot hold: a NaN, too many days, a date
      out of range), [.year] and
      [kessler.util.from_datetime_to_fractional_day] *)
  datetime : Type;
  from_year_day_to_date : Z -> float -> result datetime;
  add_days : datetime -> float -> result datetime;
  year : datetime -> Z;
  from_datetime_to_fractional_day : datetime -> float;
  (** the validation done by [kessler.tle.TLE(...)] on its dictionary *)
  tle_valid : tle_elements -> bool;
  (** the elements as the constructed object holds them (the constructor
      may, for one, reduce the angles to one turn); only the seven elements
      are read from it, see [tle_object] *)
  stored : tle_elements -> tle_elements;
  (** the derived attributes of a TLE object *)
  internal : TLE -> sgp4_fields;
  (** [util.propagate(x, tle, tsince)] *)
  propagate : vec -> TLE -> float -> result state;
  (** [propagate(x)[a][b].backward(); x.grad]: the gradient of entry
      [(a, b)] of the propagated state with respect to [x] *)
  backward : nat -> nat -> vec -> TLE -> float -> vec;
  (** [np.linalg.inv] *)
  np_linalg_inv : matrix -> result matrix
}.

(** ** numpy on lists *)

(** The order in which a dot product adds its terms is BLAS's business;
    here it is left to right. *)
Definition dot (u w : vec) : float :=
  fold_left (fun acc p => (acc + fst p * snd p)%float) (combine u w) 0%float.

(** [m.T] *)
Definition transpose (m : matrix) : matrix :=
  map (fun j => map (fun row => nth j row 0%float) m) (seq 0 (length (hd [] m))).

(** [np.matmul] of two matrices, and of a matrix and a vector.  In the
    loop the shapes always agree (six rows of six columns, see
    [jacobian_drops_columns]), so numpy's shape errors have no part here. *)
Definition matmul (a b : matrix) : matrix :=
  map (fun row => map (fun c => dot row c) (transpose b)) a.

Definition matvec (a : matrix) (w : vec) : vec :=
  map (fun row => dot row w) a.

(** [np.linalg.norm] of a vector. *)
Definition norm (w : vec) : float := PrimFloat.sqrt (dot w w).

(** [y0[k]] *)
Definition idx (y0 : vec) (k : nat) : result float :=
  match nth_error y0 k with
  | Some x => Ok x
  | None => Raise IndexError
  end.

(** [util.clone_w_grad]: a copy with its own, empty gradient. *)
Definition clone_w_grad (y0 : vec) : vec := y0.

(** ** The three functions of [newton_method.py] *)

Section NewtonMethod.
Context {C : Collaborators}.

(** The object the constructor builds from an accepted dictionary: the
    seven elements as the constructor stores them, the other fields as they
    are given. *)
Definition tle_object (d : tle_elements) : TLE := mkTLE {|
  mean_motion := mean_motion (stored d);
  b_star := b_star (stored d);
  raan := raan (stored d);
  eccentricity := eccentricity (stored d);
  argument_of_perigee := argument_of_perigee (stored d);
  inclination := inclination (stored d);
  mean_anomaly := mean_anomaly (stored d);
  mean_motion_first_derivative := mean_motion_first_derivative d;
  mean_motion_second_derivative := mean_motion_second_derivative d;
  epoch_days := epoch_days d;
  epoch_year := epoch_year d;
  classification := classification d;
  satellite_catalog_number := satellite_catalog_number d;
  ephemeris_type := ephemeris_type d;
  international_designator := international_designator d;
  revolution_number_at_epoch := revolution_number_at_epoch d;
  element_number := element_number d
|}.

(** [kessler.tle.TLE(tle_elements)] *)
Definition kessler_tle_TLE (d : tle_elements) : result TLE :=
  if tle_valid d then Ok (tle_object d) else Raise InvalidTLEError.

Definition initial_guess (tle_0 : TLE) (tsince : float)
  : result (vec * state * TLE * tle_elements) :=
  let x := (tsince * 1)%float in
  target_state <- sgp4 tle_0 x ;;
  tle_elements_0 <- from_cartesian_to_tle_elements (scale target_state 1e3%float) ;;
  let min_to_day := 1440%float in
  date_0 <- from_year_day_to_date (epoch_year tle_0) (epoch_days tle_0) ;;
  new_date <- add_days date_0 (tsince / min_to_day)%float ;;
  let tle_elements_0 := {|
    mean_motion := Conv.mean_motion tle_elements_0;
    eccentricity := Conv.eccentricity tle_elements_0;
    inclination := Conv.inclination tle_elements_0;
    raan := Conv.raan tle_elements_0;
    argument_of_perigee := Conv.argument_of_perigee tle_elements_0;
    mean_anomaly := Conv.mean_anomaly tle_elements_0;
    epoch_year := year new_date;
    epoch_days := from_datetime_to_fractional_day new_date;
    mean_motion_first_derivative := mean_motion_first_derivative tle_0;
    mean_motion_second_derivative := mean_motion_second_derivative tle_0;
    classification := classification tle_0;
    international_designator := international_designator tle_0;
    satellite_catalog_number := satellite_catalog_number tle_0;
    ephemeris_type := ephemeris_type tle_0;
    element_number := element_number tle_0;
    b_star := b_star tle_0;
    revolution_number_at_epoch := revolution_number_at_epoch tle_0
  |} in
  new_tle <- kessler_tle_TLE tle_elements_0 ;;
  let y0 := [ _bstar (internal new_tle);
              _ndot (internal new_tle);
              _nddot (internal new_tle);
              _ecco (internal new_tle);
              _argpo (internal new_tle);
              _inclo (internal new_tle);
              _mo (internal new_tle);
              _no_kozai (internal new_tle);
              _nodeo (internal new_tle);
              0%float ] in
  Ok (y0, target_state, new_tle, tle_elements_0).

(** The dictionary that [update_TLE] fills, given the seven entries of [y0]
    it reads. *)
Definition updated_elements (old_tle : TLE) (y7 y0_ y8 y3 y4 y5 y6 : float)
  : tle_elements := {|
    mean_motion := mean_motion_of_no_kozai y7;
    b_star := y0_;
    raan := y8;
    eccentricity := y3;
    argument_of_perigee := y4;
    inclination := y5;
    mean_anomaly := y6;
    mean_motion_first_derivative := mean_motion_first_derivative old_tle;
    mean_motion_second_derivative := mean_motion_second_derivative old_tle;
    epoch_days := epoch_days old_tle;
    epoch_year := epoch_year old_tle;
    classification := classification old_tle;
    satellite_catalog_number := satellite_catalog_number old_tle;
    ephemeris_type := ephemeris_type old_tle;
    international_designator := international_designator old_tle;
    revolution_number_at_epoch := revolution_number_at_epoch old_tle;
    element_number := element_number old_tle
  |}.

Definition update_TLE (old_tle : TLE) (y0 : vec) : result TLE :=
  y7 <- idx y0 7 ;;
  y0_ <- idx y0 0 ;;
  y8 <- idx y0 8 ;;
  y3 <- idx y0 3 ;;
  y4 <- idx y0 4 ;;
  y5 <- idx y0 5 ;;
  y6 <- idx y0 6 ;;
  kessler_tle_TLE (updated_elements old_tle y7 y0_ y8 y3 y4 y5 y6).

(** The variables of the [while] loop. *)
Record loop_state : Type := {
  st_i : Z;
  st_tol : float;
  st_y0 : vec;
  st_next_tle : TLE
}.

(** What [newton_method] returns, with the [return] statement that ran and
    the value of [i] there: [SolutionFound] is the [return] inside the loop
    (the one that prints "Solution found, at iter: i"), [LoopEnded] the one
    after it.  The caller receives [returned]. *)
Inductive outcome : Type :=
| SolutionFound (i : Z) (next_tle : TLE) (y0 : vec)
| LoopEnded (i : Z) (next_tle : TLE) (y0 : vec).

Definition returned (o : outcome) : TLE * vec :=
  match o with
  | SolutionFound _ t y | LoopEnded _ t y => (t, y)
  end.

Definition iterations (o : outcome) : Z :=
  match o with
  | SolutionFound i _ _ | LoopEnded i _ _ => i
  end.

(** [F]: the six propagated components minus the target's.  Each component
    comes from its own call of the propagator on its own clone of [y0]. *)
Definition residual (state_target : state) (next_tle : TLE) (y0 : vec)
  : result vec :=
  let propagate_ := fun x => propagate x next_tle 0%float in
  let y1 := clone_w_grad y0 in
  let y2 := clone_w_grad y0 in
  let y3 := clone_w_grad y0 in
  let y4 := clone_w_grad y0 in
  let y5 := clone_w_grad y0 in
  s0 <- propagate_ y0 ;; let r_x := entry s0 0 0 in
  s1 <- propagate_ y1 ;; let r_y := entry s1 0 1 in
  s2 <- propagate_ y2 ;; let r_z := entry s2 0 2 in
  s3 <- propagate_ y3 ;; let v_x := entry s3 1 0 in
  s4 <- propagate_ y4 ;; let v_y := entry s4 1 1 in
  s5 <- propagate_ y5 ;; let v_z := entry s5 1 2 in
  Ok [ (r_x - entry state_target 0 0)%float;
       (r_y - entry state_target 0 1)%float;
       (r_z - entry state_target 0 2)%float;
       (v_x - entry state_target 1 0)%float;
       (v_y - entry state_target 1 1)%float;
       (v_z - entry state_target 1 2)%float ].

(** [np.stack((gradient_rx, ..., gradient_vz))] *)
Definition stacked_gradients (next_tle : TLE) (y0 : vec) : matrix :=
  [ backward 0 0 y0 next_tle 0%float;
    backward 0 1 (clone_w_grad y0) next_tle 0%float;
    backward 0 2 (clone_w_grad y0) next_tle 0%float;
    backward 1 0 (clone_w_grad y0) next_tle 0%float;
    backward 1 1 (clone_w_grad y0) next_tle 0%float;
    backward 1 2 (clone_w_grad y0) next_tle 0%float ].

(** [DF=DF[:,3:]] then [DF=DF[:,:-1]] *)
Definition drop_columns (DF : matrix) : matrix :=
  let DF := map (skipn 3) DF in
  map (@removelast float) DF.

(** [dY=-np.matmul(np.matmul(np.linalg.inv(np.matmul(DF.T,DF)),DF.T),F)] *)
Definition gauss_newton (DF : matrix) (F : vec) : result vec :=
  inv <- np_linalg_inv (matmul (transpose DF) DF) ;;
  Ok (map PrimFloat.opp (matvec (matmul inv (transpose DF)) F)).

(** [[0.,0.,0.]+list(dY)+[0.]] *)
Definition pad (dY : vec) : vec :=
  [0%float; 0%float; 0%float] ++ dY ++ [0%float].

(** [[float(el1)+float(el2) for el1, el2 in zip(list(y0),list(dY))]] *)
Definition add_zip (y0 dY : vec) : vec :=
  map (fun p => (fst p + snd p)%float) (combine y0 dY).

(** One pass through the body of the [while] loop: either the [return]
    inside it, or the variables for the next test of the loop condition. *)
Definition newton_iteration (new_tol : float) (state_target : state)
  (st : loop_state) : result (outcome + loop_state) :=
  let i := st_i st in
  let y0 := st_y0 st in
  let next_tle := st_next_tle st in
  F <- residual state_target next_tle y0 ;;
  let tol := norm F in
  let DF := stacked_gradients next_tle y0 in
  let DF := drop_columns DF in
  dY <- gauss_newton DF F ;;
  let dY := pad dY in
  if (tol <? new_tol)%float then
    Ok (inl (SolutionFound i next_tle y0))
  else
    let y0 := add_zip y0 dY in
    next_tle <- update_TLE next_tle y0 ;;
    Ok (inr {| st_i := i + 1; st_tol := tol; st_y0 := y0; st_next_tle := next_tle |}).

(** [while i<max_iter and tol>new_tol] *)
Definition loop_condition (new_tol : float) (max_iter : Z) (st : loop_state) : bool :=
  (st_i st <? max_iter)%Z && (new_tol <? st_tol st)%float.

(** The loop.  [fuel] bounds the number of passes; [newton_method] gives it
    [max_iter], which the loop condition never lets it use up
    ([newton_loop_fuel] below). *)
Fixpoint newton_loop (fuel : nat) (new_tol : float) (max_iter : Z)
  (state_target : state) (st : loop_state) : result outcome :=
  if loop_condition new_tol max_iter st then
    match fuel with
    | O => Ok (LoopEnded (st_i st) (st_next_tle st) (st_y0 st))
    | S fuel' =>
        match newton_iteration new_tol state_target st with
        | Raise e => Raise e
        | Ok (inl o) => Ok o
        | Ok (inr st') => newton_loop fuel' new_tol max_iter state_target st'
        end
    end
  else Ok (LoopEnded (st_i st) (st_next_tle st) (st_y0 st)).

(** [i=0] and [tol=1e9] *)
Definition initial_state (y0 : vec) (next_tle : TLE) : loop_state :=
  {| st_i := 0; st_tol := 1e9%float; st_y0 := y0; st_next_tle := next_tle |}.

Definition newton_method (tle_0 : TLE) (tsince : float) (new_tol : float)
  (max_iter : Z) : result outcome :=
  '(y0, state_target, next_tle, tle_elements_0) <- initial_guess tle_0 tsince ;;
  newton_loop (Z.to_nat max_iter) new_tol max_iter state_target
    (initial_state y0 next_tle).

End NewtonMethod.

(** ** Concrete collaborators, for running the functions *)

Module Stub.

(** Matrix inversion by Gauss-Jordan elimination with partial pivoting on
    the matrix extended by the identity; a pivot that is exactly zero is
    numpy's "Singular matrix". *)
Definition pivot_row (m : matrix) (k : nat) : nat :=
  fold_left
    (fun best j =>
       if (PrimFloat.abs (nth k (nth best m []) 0) <? PrimFloat.abs (nth k (nth j m []) 0))%float
       then j else best)
    (seq k (length m - k)) k.

Definition swap_rows (m : matrix) (a b : nat) : matrix :=
  map (fun j => nth (if (j =? a)%nat then b else if (j =? b)%nat then a else j) m [])
      (seq 0 (length m)).

Definition eliminate (m : matrix) (k : nat) : matrix :=
  let pr := nth k m [] in
  let p := nth k pr 0%float in
  let pr := map (fun x => (x / p)%float) pr in
  map (fun j =>
         if (j =? k)%nat then pr
         else let rj := nth j m [] in
              let c := nth k rj 0%float in
              map (fun q => (fst q - c * snd q)%float) (combine rj pr))
      (seq 0 (length m)).

Fixpoint gauss_jordan (ks : list nat) (m : matrix) : result matrix :=
  match ks with
  | [] => Ok m
  | k :: ks' =>
      let m := swap_rows m k (pivot_row m k) in
      if (nth k (nth k m []) 0 =? 0)%float then Raise LinAlgError
      else gauss_jordan ks' (eliminate m k)
  end.

Definition inverse (a : matrix) : result matrix :=
  let n := length a in
  let extended :=
    map (fun j => nth j a [] ++ map (fun c => if (c =? j)%nat then 1%float else 0%float) (seq 0 n))
        (seq 0 n) in
  m <- gauss_jordan (seq 0 n) extended ;;
  Ok (map (skipn n) m).

(** The derived attributes, read off the fields; [_no_kozai] through the
    conversion of the mean motion. *)
Definition fields_of (t : TLE) : sgp4_fields := {|
  _bstar := b_star t;
  _ndot := mean_motion_first_derivative t;
  _nddot := mean_motion_second_derivative t;
  _ecco := eccentricity t;
  _argpo := argument_of_perigee t;
  _inclo := inclination t;
  _mo := mean_anomaly t;
  _no_kozai := no_kozai_of_mean_motion (mean_motion t);
  _nodeo := raan t
|}.

(** A family of collaborators: the propagator and its gradient are the
    arguments; the "true" propagator [sgp4] reports the six free elements
    as the state, and the elements conversion is off by [bias] in the
    eccentricity. *)
Definition world (prop : vec -> TLE -> float -> result state)
  (grad : nat -> nat -> vec -> TLE -> float -> vec) (bias : float)
  : Collaborators := {|
  sgp4 t x :=
    let f := fields_of t in
    Ok ((_ecco f, _argpo f, _inclo f), (_mo f, _no_kozai f, _nodeo f));
  from_cartesian_to_tle_elements s :=
    Ok {| Conv.eccentricity := (entry s 0 0 / 1e3 + bias)%float;
          Conv.argument_of_perigee := (entry s 0 1 / 1e3)%float;
          Conv.inclination := (entry s 0 2 / 1e3)%float;
          Conv.mean_anomaly := (entry s 1 0 / 1e3)%float;
          Conv.mean_motion := mean_motion_of_no_kozai (entry s 1 1 / 1e3)%float;
          Conv.raan := (entry s 1 2 / 1e3)%float |};
  datetime := (Z * float)%type;
  from_year_day_to_date y d := Ok (y, d);
  add_days d x :=
    if PrimFloat.is_nan x then Raise ValueError
    else if PrimFloat.is_infinity x then Raise OverflowError
    else Ok (fst d, (snd d + x)%float);
  year d := fst d;
  from_datetime_to_fractional_day d := snd d;
  tle_valid _ := true;
  stored d := d;
  internal := fields_of;
  propagate := prop;
  backward := grad;
  np_linalg_inv := inverse
|}.

(** Row [k] of the identity, as long as [x]. *)
Definition unit_like (x : vec) (k : nat) : vec :=
  map (fun j => if (j =? k)%nat then 1%float else 0%float) (seq 0 (length x)).

(** A propagator that is linear in the free elements: the state is
    [x[3..8]] itself. *)
Definition linear_propagate (x : vec) (t : TLE) (tsince : float) : result state :=
  x3 <- idx x 3 ;; x4 <- idx x 4 ;; x5 <- idx x 5 ;;
  x6 <- idx x 6 ;; x7 <- idx x 7 ;; x8 <- idx x 8 ;;
  Ok ((x3, x4, x5), (x6, x7, x8)).

Definition linear_backward (a b : nat) (x : vec) (t : TLE) (tsince : float) : vec :=
  unit_like x (3 + 3 * a + b).

Definition linear (bias : float) : Collaborators :=
  world linear_propagate linear_backward bias.

(** A propagator that ignores its parameters (so its gradient is zero). *)
Definition flat_propagate (s : state) (x : vec) (t : TLE) (tsince : float)
  : result state := Ok s.

Definition flat_backward (a b : nat) (x : vec) (t : TLE) (tsince : float) : vec :=
  map (fun _ => 0%float) x.

Definition flat (s : state) : Collaborators :=
  world (flat_propagate s) flat_backward 0%float.

(** A propagator stub that never moves, paired with the gradient of the
    linear one: the residual stays what it was. *)
Definition stuck (s : state) : Collaborators :=
  world (flat_propagate s) linear_backward 0%float.

Definition tle_0 : TLE := mkTLE {|
  mean_motion := 0.0625%float;
  b_star := 0.25%float;
  raan := 1.5%float;
  eccentricity := 0.5%float;
  argument_of_perigee := 2.25%float;
  inclination := 0.75%float;
  mean_anomaly := 3%float;
  mean_motion_first_derivative := 0.125%float;
  mean_motion_second_derivative := 0%float;
  epoch_days := 100.5%float;
  epoch_year := 2020;
  classification := "U";
  satellite_catalog_number := 25544;
  ephemeris_type := 0;
  international_designator := "98067A";
  revolution_number_at_epoch := 1234;
  element_number := 999
|}.

(** Parameter vectors: an ordinary one; one that differs from it in the
    slots 1, 2 and 9 only; one with a NaN and an infinity. *)
Definition y_example : vec :=
  [0.25; 0.125; 0; 0.5; 2.25; 0.75; 3; 3.75; 1.5; 0]%float.

Definition y_other : vec :=
  [0.25; 7; 8; 0.5; 2.25; 0.75; 3; 3.75; 1.5; 9]%float.

Definition y_not_finite : vec :=
  [0.25; 0.125; 0; nan; 2.25; 0.75; 3; infinity; 1.5; 0]%float.

(** A record with the fixed fields of [tle_0] and other free fields. *)
Definition tle_1 : TLE := mkTLE {|
  mean_motion := 1%float;
  b_star := 2%float;
  raan := 3%float;
  eccentricity := 4%float;
  argument_of_perigee := 5%float;
  inclination := 6%float;
  mean_anomaly := 7%float;
  mean_motion_first_derivative := 0.125%float;
  mean_motion_second_derivative := 0%float;
  epoch_days := 100.5%float;
  epoch_year := 2020;
  classification := "U";
  satellite_catalog_number := 25544;
  ephemeris_type := 0;
  international_designator := "98067A";
  revolution_number_at_epoch := 1234;
  element_number := 999
|}.

(** The state the stub [sgp4] reports for [tle_0]. *)
Definition target_0 : state :=
  let f := fields_of tle_0 in
  ((_ecco f, _argpo f, _inclo f), (_mo f, _no_kozai f, _nodeo f)).

(** [new_tol=1e-12], the default (the binary64 value nearest to it). *)
Definition default_tol : float := 0x1.19799812dea11p-40%float.

(** The initial guess for [tle_0] propagated by ten minutes, under given
    collaborators. *)
Definition guess_of (C : Collaborators) : vec * state * TLE * tle_elements :=
  match @initial_guess C tle_0 10%float with
  | Ok r => r
  | Raise _ => ([], target_0, tle_0, data tle_0)
  end.

Definition seed_y0 (C : Collaborators) : vec := fst (fst (fst (guess_of C))).
Definition seed_tle (C : Collaborators) : TLE := snd (fst (guess_of C)).


(** The three sets of collaborators used in the runs. *)
Definition linear_half : Collaborators := linear 0.5%float.
Definition flat_on_target : Collaborators := flat target_0.

End Stub.

(** ** Vocabulary of the statements *)

Definition neg_zero : float := (-0)%float.

(** Two floats that are the same number: equal, or the negative and the
    positive zero. *)
Definition same_number (x y : float) : Prop :=
  x = y \/ (x = neg_zero /\ y = 0%float).


Section Vocabulary.
Context {C : Collaborators}.

(** The dictionary [update_TLE] builds from a vector of nine entries or
    more. *)
Definition elements_from (old_tle : TLE) (y : vec) : tle_elements :=
  updated_elements old_tle
    (nth 7 y 0%float) (nth 0 y 0%float) (nth 8 y 0%float) (nth 3 y 0%float)
    (nth 4 y 0%float) (nth 5 y 0%float) (nth 6 y 0%float).

(** The fields [update_TLE] takes from the parameter vector ... *)
Definition free_fields (t : tle_elements)
  : float * float * float * float * float * float * float :=
  (mean_motion t, b_star t, raan t, eccentricity t, argument_of_perigee t,
   inclination t, mean_anomaly t).

(** ... and the ones it copies from the old record. *)
Definition fixed_fields (t : tle_elements)
  : float * float * float * Z * string * Z * Z * string * Z * Z :=
  (mean_motion_first_derivative t, mean_motion_second_derivative t,
   epoch_days t, epoch_year t, classification t, satellite_catalog_number t,
   ephemeris_type t, international_designator t,
   revolution_number_at_epoch t, element_number t).

(** The entries of the parameter vector that [update_TLE] reads. *)
Definition read_slots : list nat := [0; 3; 4; 5; 6; 7; 8]%nat.

(** The reduced Jacobian of an iteration. *)
Definition jacobian (next_tle : TLE) (y0 : vec) : matrix :=
  drop_columns (stacked_gradients next_tle y0).

(** The values the loop variables take: those [newton_method] starts the
    loop with, for the initial guess [y_init] and the target [state_target],
    and those a pass through the body leaves for the next one. *)
Inductive reachable (tle_0 : TLE) (tsince new_tol : float) (y_init : vec)
  (state_target : state) : loop_state -> Prop :=
| reach_init next_tle tle_elements_0 :
    initial_guess tle_0 tsince = Ok (y_init, state_target, next_tle, tle_elements_0) ->
    reachable tle_0 tsince new_tol y_init state_target (initial_state y_init next_tle)
| reach_pass st st' :
    reachable tle_0 tsince new_tol y_init state_target st ->
    newton_iteration new_tol state_target st = Ok (inr st') ->
    reachable tle_0 tsince new_tol y_init state_target st'.


(** The gradient has the shape of the tensor it is the gradient of. *)
Definition backward_shape : Prop :=
  forall a b x t s, length (backward a b x t s) = length x.

(** [np.linalg.inv] returns as many rows as it is given. *)
Definition inv_shape : Prop :=
  forall m m', np_linalg_inv m = Ok m' -> length m' = length m.

End Vocabulary.

(** ** Further vocabulary *)

Section Contracts.
Context {C : Collaborators}.

(** [new_date] of [initial_guess]: the epoch of [tle_0], [tsince] minutes
    later, when [datetime] can hold it. *)
Definition shifted_date (tle_0 : TLE) (tsince : float) : result datetime :=
  date_0 <- from_year_day_to_date (epoch_year tle_0) (epoch_days tle_0) ;;
  add_days date_0 (tsince / 1440)%float.

(** The fields that neither [initial_guess] nor [update_TLE] ever
    changes. *)
Definition metadata (t : tle_elements)
  : float * float * string * string * Z * Z * Z * Z :=
  (mean_motion_first_derivative t, mean_motion_second_derivative t,
   classification t, international_designator t, satellite_catalog_number t,
   ephemeris_type t, element_number t, revolution_number_at_epoch t).

(** The six classical elements of a record, in the order of the keys of
    the elements conversion. *)
Definition classical (t : tle_elements)
  : float * float * float * float * float * float :=
  (mean_motion t, eccentricity t, inclination t, raan t,
   argument_of_perigee t, mean_anomaly t).

Definition classical_of (k : Conv.elements)
  : float * float * float * float * float * float :=
  (Conv.mean_motion k, Conv.eccentricity k, Conv.inclination k, Conv.raan k,
   Conv.argument_of_perigee k, Conv.mean_anomaly k).

(** The record and the vector go together: the record is what
    [update_TLE] builds from the vector (and from the record's own fixed
    fields). *)
Definition agrees (t : TLE) (y : vec) : Prop :=
  update_TLE t y = Ok t.

End Contracts.

(** Runs of [newton_method] on [Stub.tle_0], ten minutes on. *)
Module Run.

Definition outcome_of (C : Collaborators) (new_tol : float) (max_iter : Z)
  : outcome :=
  match @newton_method C Stub.tle_0 10%float new_tol max_iter with
  | Ok o => o
  | Raise _ => LoopEnded (-1) Stub.tle_0 []
  end.

(** The record and the vector of the run that converges. *)
Definition found_tle : TLE :=
  fst (returned (outcome_of Stub.linear_half Stub.default_tol 50)).
Definition found_y0 : vec :=
  snd (returned (outcome_of Stub.linear_half Stub.default_tol 50)).

(** The loop variables after the first pass of that run. *)
Definition after_one_pass : loop_state :=
  match @newton_iteration Stub.linear_half Stub.default_tol Stub.target_0
          (initial_state (Stub.seed_y0 Stub.linear_half)
                         (Stub.seed_tle Stub.linear_half)) with
  | Ok (inr st) => st
  | _ => initial_state [] Stub.tle_0
  end.

(** A propagator that answers NaN in every component, with the gradient of
    the linear one. *)
Definition nan_state : state := ((nan, nan, nan), (nan, nan, nan)).
Definition blind : Collaborators := Stub.stuck nan_state.

End Run.
(** ** Facts about binary64 addition of zero *)

Lemma add_pos_zero (x : float) : x <> neg_zero -> (x + 0)%float = x.
Proof.
  intros Hx. apply Prim2SF_inj. rewrite add_spec.
  change (Prim2SF 0%float) with (S754_zero false).
  destruct (Prim2SF x) as [s | s | | s m e] eqn:E; try reflexivity.
  destruct s; [ | reflexivity ].
  exfalso. apply Hx. apply Prim2SF_inj. rewrite E. reflexivity.
Qed.

Lemma add_pos_zero_neg_zero : (neg_zero + 0)%float = 0%float.
Proof. reflexivity. Qed.

Lemma same_number_refl (x : float) : same_number x x.
Proof. left. reflexivity. Qed.

Lemma neg_zero_dec (y : float) : y = neg_zero \/ y <> neg_zero.
Proof.
  destruct (Prim2SF y) as [s | s | | s m e] eqn:E;
    try (right; intros ->; discriminate E).
  destruct s.
  - left. apply Prim2SF_inj. rewrite E. reflexivity.
  - right. intros ->. discriminate E.
Qed.

Lemma same_number_add_zero (x y : float) :
  same_number x y -> same_number x (y + 0)%float.
Proof.
  intros [-> | [-> ->]].
  - destruct (neg_zero_dec y) as [-> | Hy].
    + right. split; reflexivity.
    + left. symmetry. apply add_pos_zero. exact Hy.
  - right. split; reflexivity.
Qed.

Lemma same_number_compare (x y : float) :
  same_number x y -> x = y \/ (x ?= y)%float = FEq.
Proof. intros [-> | [-> ->]]; [ left | right ]; reflexivity. Qed.

(** ** Shapes of the list operations *)

Lemma length_matvec (a : matrix) (w : vec) : length (matvec a w) = length a.
Proof. unfold matvec. apply length_map. Qed.

Lemma length_matmul (a b : matrix) : length (matmul a b) = length a.
Proof. unfold matmul. apply length_map. Qed.

Lemma length_transpose (m : matrix) : length (transpose m) = length (hd [] m).
Proof. unfold transpose. rewrite length_map, length_seq. reflexivity. Qed.

Lemma length_ten {A : Type} (l : list A) :
  length l = 10%nat ->
  exists a0 a1 a2 a3 a4 a5 a6 a7 a8 a9, l = [a0; a1; a2; a3; a4; a5; a6; a7; a8; a9].
Proof.
  intros Hl.
  do 10 (destruct l as [ | ? l]; [ discriminate Hl | ]).
  destruct l; [ | discriminate Hl ].
  do 10 eexists. reflexivity.
Qed.

Lemma length_six {A : Type} (l : list A) :
  length l = 6%nat -> exists a0 a1 a2 a3 a4 a5, l = [a0; a1; a2; a3; a4; a5].
Proof.
  intros Hl.
  do 6 (destruct l as [ | ? l]; [ discriminate Hl | ]).
  destruct l; [ | discriminate Hl ].
  do 6 eexists. reflexivity.
Qed.

Lemma idx_nth (y : vec) (k : nat) :
  (k < length y)%nat -> idx y k = Ok (nth k y 0%float).
Proof.
  intros Hk. unfold idx.
  rewrite (nth_error_nth' y 0%float Hk). reflexivity.
Qed.

Lemma idx_short (y : vec) (k : nat) :
  (length y <= k)%nat -> idx y k = Raise IndexError.
Proof.
  intros Hk. unfold idx.
  apply nth_error_None in Hk. rewrite Hk. reflexivity.
Qed.

(** One row of ten gradients loses its slots 0, 1, 2 and 9. *)
Lemma drop_row_ten (g : vec) :
  length g = 10%nat ->
  removelast (skipn 3 g)
  = [nth 3 g 0%float; nth 4 g 0%float; nth 5 g 0%float;
     nth 6 g 0%float; nth 7 g 0%float; nth 8 g 0%float].
Proof.
  intros Hg. destruct (length_ten g Hg) as (a0 & a1 & a2 & a3 & a4 & a5 & a6 & a7 & a8 & a9 & ->).
  reflexivity.
Qed.

(** ** [update_TLE] *)

Section UpdateTLE.
Context {C : Collaborators}.

Lemma update_TLE_long (old_tle : TLE) (y : vec) :
  (9 <= length y)%nat ->
  update_TLE old_tle y = kessler_tle_TLE (elements_from old_tle y).
Proof.
  intros Hy. unfold update_TLE, elements_from.
  rewrite !idx_nth by lia. reflexivity.
Qed.

Lemma update_TLE_short (old_tle : TLE) (y : vec) :
  (length y < 9)%nat -> update_TLE old_tle y = Raise IndexError.
Proof.
  intros Hy. unfold update_TLE.
  destruct (Nat.le_gt_cases (length y) 7) as [H7 | H7].
  - rewrite (idx_short y 7 H7). reflexivity.
  - rewrite (@idx_nth y 7), (@idx_nth y 0) by lia.
    rewrite (@idx_short y 8) by lia. reflexivity.
Qed.

Lemma update_TLE_Ok (old_tle new_tle : TLE) (y : vec) :
  update_TLE old_tle y = Ok new_tle ->
  (9 <= length y)%nat /\ tle_valid (elements_from old_tle y) = true
  /\ new_tle = tle_object (elements_from old_tle y).
Proof.
  intros H.
  destruct (Nat.le_gt_cases 9 (length y)) as [Hy | Hy].
  - rewrite (update_TLE_long old_tle y Hy) in H. unfold kessler_tle_TLE in H.
    destruct (tle_valid (elements_from old_tle y)); [ | discriminate H ].
    injection H as <-. auto.
  - rewrite (update_TLE_short old_tle y Hy) in H. discriminate H.
Qed.

Lemma mean_motion_is_a_sixtieth (x : R) :
  mean_motion_of_no_kozai x = (x / 60)%R.
Proof.
  unfold mean_motion_of_no_kozai, xpdotp. cbn.
  field. apply PI_neq0.
Qed.

(** The dictionary depends on the old record through its fixed fields
    only. *)
Lemma elements_from_fixed (t t' : TLE) (y : vec) :
  fixed_fields t = fixed_fields t' -> elements_from t y = elements_from t' y.
Proof.
  unfold fixed_fields. intros Hf.
  injection Hf as H1 H2 H3 H4 H5 H6 H7 H8 H9 H10.
  unfold elements_from, updated_elements.
  rewrite H1, H2, H3, H4, H5, H6, H7, H8, H9, H10. reflexivity.
Qed.

Lemma tle_object_fixed (d : tle_elements) :
  fixed_fields (tle_object d) = fixed_fields d.
Proof. reflexivity. Qed.

(** C4.  The record [update_TLE] returns is the one the TLE constructor
    builds from a dictionary that has, as mean motion,
    [y[7] * xpdotp * pi / 43200] with [xpdotp = 1440/(2 pi)] (computed in
    binary64, in this order; over the reals this is [y[7]/60]), and as drag
    term, RAAN, eccentricity, argument of perigee, inclination and mean
    anomaly the entries 0, 8, 3, 4, 5 and 6 of [y], unconverted. *)
Theorem update_TLE_field_map (old_tle new_tle : TLE) (y : vec) :
  update_TLE old_tle y = Ok new_tle ->
  kessler_tle_TLE (elements_from old_tle y) = Ok new_tle
  /\ mean_motion (elements_from old_tle y)
     = (nth 7 y 0 * (1440 / (2 * np_pi)) * np_pi / 43200)%float
  /\ b_star (elements_from old_tle y) = nth 0 y 0%float
  /\ raan (elements_from old_tle y) = nth 8 y 0%float
  /\ eccentricity (elements_from old_tle y) = nth 3 y 0%float
  /\ argument_of_perigee (elements_from old_tle y) = nth 4 y 0%float
  /\ inclination (elements_from old_tle y) = nth 5 y 0%float
  /\ mean_anomaly (elements_from old_tle y) = nth 6 y 0%float
  /\ (forall x : R, mean_motion_of_no_kozai x = (x / 60)%R).
Proof.
  intros H.
  pose proof (update_TLE_Ok old_tle new_tle y H) as (Hy & _ & _).
  rewrite (update_TLE_long old_tle y Hy) in H.
  split; [ exact H | ].
  repeat split. apply mean_motion_is_a_sixtieth.
Qed.

(** C6 (as amended).  [update_TLE] checks no entry for finiteness: given
    nine entries or more, whatever they are, it hands the dictionary to the
    TLE constructor and returns the object the constructor builds when it
    accepts the dictionary;
    the only exceptions it can leave with are the [IndexError] of a vector
    shorter than nine and the constructor's own. *)
Theorem update_TLE_failures (old_tle : TLE) (y : vec) :
  (forall e, update_TLE old_tle y = Raise e ->
     (e = IndexError /\ (length y < 9)%nat)
     \/ (e = InvalidTLEError /\ (9 <= length y)%nat
         /\ tle_valid (elements_from old_tle y) = false))
  /\ ((9 <= length y)%nat ->
      tle_valid (elements_from old_tle y) = true ->
      update_TLE old_tle y = Ok (tle_object (elements_from old_tle y))).
Proof.
  split.
  - intros e H.
    destruct (Nat.le_gt_cases 9 (length y)) as [Hy | Hy].
    + right. rewrite (update_TLE_long old_tle y Hy) in H. unfold kessler_tle_TLE in H.
      destruct (tle_valid (elements_from old_tle y)); [ discriminate H | ].
      injection H as <-. auto.
    + left. rewrite (update_TLE_short old_tle y Hy) in H.
      injection H as <-. auto.
  - intros Hy Hv. rewrite (update_TLE_long old_tle y Hy).
    unfold kessler_tle_TLE. rewrite Hv. reflexivity.
Qed.

(** C8.  Updating the result of [update_TLE T y] with the same [y] again
    succeeds and gives a record with the same free fields and the same fixed
    fields, and these fixed fields are those of [T]. *)
Theorem update_TLE_idempotent (T T1 : TLE) (y : vec) :
  update_TLE T y = Ok T1 ->
  exists T2,
    update_TLE T1 y = Ok T2
    /\ free_fields T2 = free_fields T1
    /\ fixed_fields T2 = fixed_fields T1
    /\ fixed_fields T1 = fixed_fields T.
Proof.
  intros H. apply update_TLE_Ok in H as (Hy & Hv & ->).
  exists (tle_object (elements_from T y)).
  rewrite (update_TLE_long _ y Hy).
  assert (E : elements_from (tle_object (elements_from T y)) y = elements_from T y)
    by (apply elements_from_fixed; reflexivity).
  rewrite E. unfold kessler_tle_TLE. rewrite Hv. repeat split.
Qed.

(** C10.  [update_TLE old_tle y] is determined by the entries 0, 3, 4, 5,
    6, 7 and 8 of [y] and by the fixed fields of [old_tle]: two vectors that
    agree on these entries (so that differ in the entries 1, 2 and 9 only),
    with two old records that agree on the fixed fields, give the same
    result. *)
Theorem update_TLE_reads_only (old_tle old_tle' : TLE) (y y' : vec) :
  (forall k, In k read_slots -> nth_error y k = nth_error y' k) ->
  fixed_fields old_tle = fixed_fields old_tle' ->
  update_TLE old_tle y = update_TLE old_tle' y'.
Proof.
  intros Hk Hf. unfold update_TLE, idx.
  rewrite (Hk 7%nat), (Hk 0%nat), (Hk 8%nat), (Hk 3%nat), (Hk 4%nat),
    (Hk 5%nat), (Hk 6%nat) by (unfold read_slots; simpl; tauto).
  unfold fixed_fields in Hf. injection Hf as H1 H2 H3 H4 H5 H6 H7 H8 H9 H10.
  unfold updated_elements.
  rewrite H1, H2, H3, H4, H5, H6, H7, H8, H9, H10. reflexivity.
Qed.

End UpdateTLE.

(** [update_TLE_field_map] on [tle_1], whose seven elements are all other
    than those written from [y_example]. *)
Lemma update_TLE_field_map_witness :
  @kessler_tle_TLE Stub.linear_half (elements_from Stub.tle_1 Stub.y_example)
  = Ok (@tle_object Stub.linear_half (elements_from Stub.tle_1 Stub.y_example))
  /\ mean_motion (elements_from Stub.tle_1 Stub.y_example) = 0.0625%float
  /\ raan (elements_from Stub.tle_1 Stub.y_example) = 1.5%float
  /\ mean_motion Stub.tle_1 = 1%float
  /\ raan Stub.tle_1 = 3%float.
Proof.
  assert (H : @update_TLE Stub.linear_half Stub.tle_1 Stub.y_example
              = Ok (@tle_object Stub.linear_half
                      (elements_from Stub.tle_1 Stub.y_example)))
    by reflexivity.
  destruct (@update_TLE_field_map Stub.linear_half Stub.tle_1 _ Stub.y_example H)
    as (Hc & Hm & _ & Hr & _).
  split; [ exact Hc | ]. split; [ exact Hm | ]. split; [ exact Hr | ].
  split; reflexivity.
Defined.

(** C6, refuted as stated: with a constructor that accepts every
    dictionary, a vector with a NaN and an infinity among its entries gives
    a record (with these as eccentricity and mean motion), not an
    [InvalidElementError]. *)
Lemma update_TLE_accepts_not_finite :
  existsb (fun x => PrimFloat.is_nan x || PrimFloat.is_infinity x) Stub.y_not_finite = true
  /\ exists t,
       @update_TLE Stub.linear_half Stub.tle_0 Stub.y_not_finite = Ok t
       /\ PrimFloat.is_nan (eccentricity t) = true
       /\ PrimFloat.is_infinity (mean_motion t) = true
       /\ @update_TLE Stub.linear_half Stub.tle_0 Stub.y_not_finite
          <> Raise InvalidElementError.
Proof.
  split; [ reflexivity | ].
  eexists. split; [ reflexivity | ].
  split; [ reflexivity | ]. split; [ reflexivity | ].
  cbv. discriminate.
Qed.

(** [update_TLE_failures] on the vector with a NaN and an infinity. *)
Lemma update_TLE_failures_witness :
  @update_TLE Stub.linear_half Stub.tle_0 Stub.y_not_finite
  = Ok (@tle_object Stub.linear_half (elements_from Stub.tle_0 Stub.y_not_finite)).
Proof.
  apply (proj2 (@update_TLE_failures Stub.linear_half Stub.tle_0 Stub.y_not_finite)).
  - simpl. lia.
  - reflexivity.
Defined.

(** [update_TLE_idempotent] on [tle_1] and [y_example]. *)
Lemma update_TLE_idempotent_witness :
  @update_TLE Stub.linear_half Stub.tle_1 Stub.y_example
  = Ok (@tle_object Stub.linear_half (elements_from Stub.tle_1 Stub.y_example))
  /\ exists T2,
       @update_TLE Stub.linear_half
         (@tle_object Stub.linear_half (elements_from Stub.tle_1 Stub.y_example)) Stub.y_example
       = Ok T2
       /\ free_fields T2 = free_fields (elements_from Stub.tle_1 Stub.y_example)
       /\ fixed_fields T2 = fixed_fields (elements_from Stub.tle_1 Stub.y_example)
       /\ fixed_fields (elements_from Stub.tle_1 Stub.y_example)
          = fixed_fields Stub.tle_1.
Proof.
  pose (T1 := @tle_object Stub.linear_half (elements_from Stub.tle_1 Stub.y_example)).
  assert (H : @update_TLE Stub.linear_half Stub.tle_1 Stub.y_example = Ok T1)
    by reflexivity.
  split; [ exact H | ].
  exact (@update_TLE_idempotent Stub.linear_half Stub.tle_1 T1 Stub.y_example H).
Defined.

(** [update_TLE_reads_only] on two vectors that differ in the slots 1, 2
    and 9 and two records that differ in the free fields. *)
Lemma update_TLE_reads_only_witness :
  @update_TLE Stub.linear_half Stub.tle_0 Stub.y_example
  = @update_TLE Stub.linear_half Stub.tle_1 Stub.y_other.
Proof.
  apply (@update_TLE_reads_only Stub.linear_half).
  - intros k Hk. simpl in Hk.
    repeat (destruct Hk as [<- | Hk]; [ reflexivity | ]). contradiction.
  - reflexivity.
Defined.

(** ** The round trip of the unit conversion *)



(** In binary64 the round trip is exact on these values. *)
Example mean_motion_round_trip_float :
  mean_motion_of_no_kozai (no_kozai_of_mean_motion 0.0625%float) = 0.0625%float
  /\ mean_motion_of_no_kozai (no_kozai_of_mean_motion 0x1.0624dd2f1a9fcp-10%float)
     = 0x1.0624dd2f1a9fcp-10%float.
Proof. split; reflexivity. Qed.

(** ** The loop of [newton_method] *)

Section Loop.
Context {C : Collaborators}.
Variables (new_tol : float) (max_iter : Z) (state_target : state).

(** What a pass that ends in the Newton update has computed. *)
Lemma newton_iteration_pass (st st' : loop_state) :
  newton_iteration new_tol state_target st = Ok (inr st') ->
  exists F dY next_tle',
    residual state_target (st_next_tle st) (st_y0 st) = Ok F
    /\ gauss_newton (jacobian (st_next_tle st) (st_y0 st)) F = Ok dY
    /\ (norm F <? new_tol)%float = false
    /\ update_TLE (st_next_tle st) (add_zip (st_y0 st) (pad dY)) = Ok next_tle'
    /\ st' = {| st_i := st_i st + 1; st_tol := norm F;
                st_y0 := add_zip (st_y0 st) (pad dY);
                st_next_tle := next_tle' |}.
Proof.
  unfold newton_iteration, jacobian. intros H.
  destruct (residual state_target (st_next_tle st) (st_y0 st)) as [F | e];
    [ | discriminate H ].
  cbn [bind] in H.
  destruct (gauss_newton _ F) as [dY | e] eqn:HdY; [ | discriminate H ].
  cbn [bind] in H.
  destruct (norm F <? new_tol)%float eqn:Htol; [ discriminate H | ].
  destruct (update_TLE _ _) as [t | e] eqn:Ht; [ | discriminate H ].
  cbn [bind] in H. injection H as <-.
  exists F, dY, t. auto.
Qed.

Lemma newton_iteration_i (st st' : loop_state) :
  newton_iteration new_tol state_target st = Ok (inr st') ->
  st_i st' = (st_i st + 1)%Z.
Proof.
  intros H. apply newton_iteration_pass in H as (F & dY & t & _ & _ & _ & _ & ->).
  reflexivity.
Qed.

Lemma loop_condition_true (st : loop_state) :
  loop_condition new_tol max_iter st = true <->
  (st_i st < max_iter)%Z /\ (new_tol <? st_tol st)%float = true.
Proof.
  unfold loop_condition. rewrite andb_true_iff, Z.ltb_lt. tauto.
Qed.

(** The loop as the [while] statement reads: with [max_iter - i] passes
    allowed or more, the bound on the passes plays no part. *)
Lemma newton_loop_while (fuel : nat) (st : loop_state) :
  (Z.to_nat (max_iter - st_i st) <= fuel)%nat ->
  newton_loop fuel new_tol max_iter state_target st
  = if loop_condition new_tol max_iter st then
      match newton_iteration new_tol state_target st with
      | Raise e => Raise e
      | Ok (inl o) => Ok o
      | Ok (inr st') => newton_loop fuel new_tol max_iter state_target st'
      end
    else Ok (LoopEnded (st_i st) (st_next_tle st) (st_y0 st)).
Proof.
  revert st. induction fuel as [ | fuel IH]; intros st Hfuel.
  - cbn [newton_loop].
    destruct (loop_condition new_tol max_iter st) eqn:Hc; [ | reflexivity ].
    apply loop_condition_true in Hc. lia.
  - cbn [newton_loop].
    destruct (loop_condition new_tol max_iter st) eqn:Hc; [ | reflexivity ].
    destruct (newton_iteration new_tol state_target st) as [[o | st'] | e] eqn:Hit;
      try reflexivity.
    apply newton_iteration_i in Hit.
    apply loop_condition_true in Hc.
    rewrite (IH st') by lia.
    cbn [newton_loop].
    destruct (loop_condition new_tol max_iter st') eqn:Hc'; reflexivity.
Qed.

(** C1 (as amended).  In a pass of the loop whose residual norm is
    strictly below the tolerance, the normal equations are solved before
    the test: if that solve succeeds the solver returns the current record
    and the current parameter vector, without the correction; if it raises,
    the solver raises. *)
Theorem newton_loop_below_tolerance (fuel : nat) (st : loop_state) (F : vec) :
  (Z.to_nat (max_iter - st_i st) <= fuel)%nat ->
  loop_condition new_tol max_iter st = true ->
  residual state_target (st_next_tle st) (st_y0 st) = Ok F ->
  (norm F <? new_tol)%float = true ->
  newton_loop fuel new_tol max_iter state_target st
  = match gauss_newton (drop_columns (stacked_gradients (st_next_tle st) (st_y0 st))) F with
    | Ok dY => Ok (SolutionFound (st_i st) (st_next_tle st) (st_y0 st))
    | Raise e => Raise e
    end.
Proof.
  intros Hfuel Hc HF Htol.
  rewrite (newton_loop_while fuel st Hfuel), Hc.
  unfold newton_iteration. rewrite HF. cbn [bind].
  destruct (gauss_newton _ F) as [dY | e]; cbn [bind]; [ | reflexivity ].
  rewrite Htol. reflexivity.
Qed.



End Loop.

Section Solver.
Context {C : Collaborators}.


(** C7 (as amended).  [newton_method] starts the loop with the residual
    norm set to [1e9]; so for every tolerance below [1e9] and every
    [max_iter >= 1] the loop condition holds at the start and the body of
    the loop is run on the initial guess. *)
Theorem newton_method_enters_loop (tle_0 : TLE) (tsince new_tol : float)
  (max_iter : Z) (y0 : vec) (state_target : state) (next_tle : TLE)
  (tle_elements_0 : tle_elements) :
  (1 <= max_iter)%Z ->
  (new_tol <? 1e9)%float = true ->
  initial_guess tle_0 tsince = Ok (y0, state_target, next_tle, tle_elements_0) ->
  st_tol (initial_state y0 next_tle) = 1e9%float
  /\ loop_condition new_tol max_iter (initial_state y0 next_tle) = true
  /\ newton_method tle_0 tsince new_tol max_iter
     = match newton_iteration new_tol state_target (initial_state y0 next_tle) with
       | Raise e => Raise e
       | Ok (inl o) => Ok o
       | Ok (inr st') =>
           newton_loop (Z.to_nat max_iter) new_tol max_iter state_target st'
       end.
Proof.
  intros Hmax Htol Hinit.
  assert (Hc : loop_condition new_tol max_iter (initial_state y0 next_tle) = true)
    by (apply loop_condition_true; cbn [initial_state st_i st_tol]; split;
        [ lia | exact Htol ]).
  split; [ reflexivity | ]. split; [ exact Hc | ].
  unfold newton_method. rewrite Hinit. cbn [bind].
  rewrite newton_loop_while by (cbn [initial_state st_i]; lia).
  rewrite Hc. reflexivity.
Qed.

End Solver.

(** ** Runs under the concrete collaborators *)

Lemma guess_linear :
  @initial_guess Stub.linear_half Stub.tle_0 10%float
  = Ok (Stub.seed_y0 Stub.linear_half, Stub.target_0,
        Stub.seed_tle Stub.linear_half, data (Stub.seed_tle Stub.linear_half)).
Proof. reflexivity. Qed.

Lemma guess_flat :
  @initial_guess Stub.flat_on_target Stub.tle_0 10%float
  = Ok (Stub.seed_y0 Stub.flat_on_target, Stub.target_0,
        Stub.seed_tle Stub.flat_on_target,
        data (Stub.seed_tle Stub.flat_on_target)).
Proof. reflexivity. Qed.


(** C1, refuted as stated: the propagator returns the target itself, so the
    residual norm is 0, below the tolerance [1e-12]; its gradient is zero,
    the matrix of the normal equations is singular, and [newton_method]
    leaves with numpy's [LinAlgError]. *)
Lemma tolerance_met_yet_LinAlgError :
  @residual Stub.flat_on_target Stub.target_0 (Stub.seed_tle Stub.flat_on_target) (Stub.seed_y0 Stub.flat_on_target)
  = Ok [0; 0; 0; 0; 0; 0]%float
  /\ (norm [0; 0; 0; 0; 0; 0] <=? Stub.default_tol)%float = true
  /\ @newton_method Stub.flat_on_target Stub.tle_0 10%float Stub.default_tol 50
     = Raise LinAlgError.
Proof. repeat split; vm_compute; reflexivity. Qed.

(** The other departure from C1 as stated: a residual norm equal to the
    tolerance is not "found"; the correction is applied (here the
    eccentricity goes from 1 to 0.5), and only then does the loop end. *)
Example tolerance_met_exactly_yet_updated :
  @residual Stub.linear_half Stub.target_0 (Stub.seed_tle Stub.linear_half) (Stub.seed_y0 Stub.linear_half)
  = Ok [0.5; 0; 0; 0; 0; 0]%float
  /\ norm [0.5; 0; 0; 0; 0; 0]%float = 0.5%float
  /\ nth 3 (Stub.seed_y0 Stub.linear_half) 0%float = 1%float
  /\ exists t y,
       @newton_method Stub.linear_half Stub.tle_0 10%float 0.5%float 50 = Ok (LoopEnded 1 t y)
       /\ nth 3 y 0%float = 0.5%float.
Proof.
  split; [ reflexivity | ]. split; [ reflexivity | ]. split; [ reflexivity | ].
  eexists. eexists. split; [ vm_compute; reflexivity | reflexivity ].
Qed.

(** [newton_loop_below_tolerance] with the tolerance 1: the first pass has
    the residual norm 0.5 and returns the initial guess. *)
Lemma newton_loop_below_tolerance_witness :
  @newton_loop Stub.linear_half 50 1%float 50 Stub.target_0
    (initial_state (Stub.seed_y0 Stub.linear_half) (Stub.seed_tle Stub.linear_half))
  = Ok (SolutionFound 0 (Stub.seed_tle Stub.linear_half) (Stub.seed_y0 Stub.linear_half)).
Proof.
  set (C := Stub.linear_half).
  rewrite (@newton_loop_below_tolerance C 1%float 50 Stub.target_0 50
             (initial_state (Stub.seed_y0 C) (Stub.seed_tle C))
             [0.5; 0; 0; 0; 0; 0]%float).
  - reflexivity.
  - vm_compute. lia.
  - reflexivity.
  - reflexivity.
  - reflexivity.
Defined.


(** C7, refuted as stated: the residual norm starts at [1e9], not at
    infinity; with the finite tolerance [1e9] and [max_iter = 50] the loop
    condition fails at once and the initial guess is returned with no pass
    made. *)
Lemma huge_tolerance_skips_loop :
  st_tol (initial_state (Stub.seed_y0 Stub.linear_half) (Stub.seed_tle Stub.linear_half)) <> infinity
  /\ PrimFloat.is_finite 1e9%float = true
  /\ (1 <= 50)%Z
  /\ loop_condition 1e9%float 50 (initial_state (Stub.seed_y0 Stub.linear_half) (Stub.seed_tle Stub.linear_half))
     = false
  /\ @newton_method Stub.linear_half Stub.tle_0 10%float 1e9%float 50
     = Ok (LoopEnded 0 (Stub.seed_tle Stub.linear_half) (Stub.seed_y0 Stub.linear_half)).
Proof.
  set (C := Stub.linear_half). split.
  - intros H. apply (f_equal PrimFloat.is_infinity) in H. discriminate H.
  - split; [ reflexivity | ]. split; [ lia | ].
    split; [ reflexivity | vm_compute; reflexivity ].
Qed.

(** [newton_method_enters_loop] with the default tolerance. *)
Lemma newton_method_enters_loop_witness :
  loop_condition Stub.default_tol 50
    (initial_state (Stub.seed_y0 Stub.linear_half) (Stub.seed_tle Stub.linear_half)) = true.
Proof.
  set (C := Stub.linear_half).
  destruct (@newton_method_enters_loop C Stub.tle_0 10%float Stub.default_tol 50
              (Stub.seed_y0 C) Stub.target_0 (Stub.seed_tle C)
              (data (Stub.seed_tle C)))
    as (_ & Hc & _).
  - lia.
  - reflexivity.
  - exact guess_linear.
  - exact Hc.
Defined.

(** ** What every pass of the loop preserves *)

Section Invariant.
Context {C : Collaborators}.
Hypothesis Hback : backward_shape.
Hypothesis Hinv : inv_shape.

Lemma initial_guess_shape (tle_0 : TLE) (tsince : float) (y0 : vec)
  (state_target : state) (next_tle : TLE) (tle_elements_0 : tle_elements) :
  initial_guess tle_0 tsince = Ok (y0, state_target, next_tle, tle_elements_0) ->
  length y0 = 10%nat /\ nth 9 y0 0%float = 0%float.
Proof.
  unfold initial_guess. intros H.
  destruct (sgp4 tle_0 (tsince * 1)%float) as [s | e]; [ | discriminate H ].
  cbn [bind] in H.
  destruct (from_cartesian_to_tle_elements _) as [el | e]; [ | discriminate H ].
  cbn [bind] in H.
  destruct (from_year_day_to_date _ _) as [date_0 | e]; [ | discriminate H ].
  cbn [bind] in H.
  destruct (add_days _ _) as [new_date | e]; [ | discriminate H ].
  cbn [bind] in H.
  destruct (kessler_tle_TLE _) as [t | e]; [ | discriminate H ].
  cbn [bind] in H. injection H as <- _ _ _.
  split; reflexivity.
Qed.

Lemma stacked_gradients_shape (next_tle : TLE) (y0 : vec) :
  length y0 = 10%nat ->
  length (stacked_gradients next_tle y0) = 6%nat
  /\ Forall (fun g => length g = 10%nat) (stacked_gradients next_tle y0).
Proof.
  intros Hy. split; [ reflexivity | ].
  unfold stacked_gradients, clone_w_grad.
  repeat constructor; rewrite Hback; exact Hy.
Qed.

Lemma drop_columns_ten (DF : matrix) :
  Forall (fun g => length g = 10%nat) DF ->
  drop_columns DF
  = map (fun g => [nth 3 g 0%float; nth 4 g 0%float; nth 5 g 0%float;
                   nth 6 g 0%float; nth 7 g 0%float; nth 8 g 0%float]) DF.
Proof.
  unfold drop_columns. rewrite map_map.
  induction 1 as [ | g DF Hg HDF IH]; [ reflexivity | ].
  cbn [map]. rewrite IH, (drop_row_ten g Hg). reflexivity.
Qed.

Lemma gauss_newton_length (DF : matrix) (F dY : vec) :
  gauss_newton DF F = Ok dY -> length dY = length (hd [] DF).
Proof.
  unfold gauss_newton. intros H.
  destruct (np_linalg_inv (matmul (transpose DF) DF)) as [inv | e] eqn:E;
    [ | discriminate H ].
  cbn [bind] in H. injection H as <-.
  rewrite length_map, length_matvec, length_matmul.
  rewrite (Hinv _ _ E), length_matmul, length_transpose. reflexivity.
Qed.

Lemma correction_length (next_tle : TLE) (y0 F dY : vec) :
  length y0 = 10%nat ->
  gauss_newton (jacobian next_tle y0) F = Ok dY ->
  length dY = 6%nat.
Proof.
  intros Hy H. apply gauss_newton_length in H. rewrite H.
  unfold jacobian.
  rewrite (drop_columns_ten _ (proj2 (stacked_gradients_shape next_tle y0 Hy))).
  reflexivity.
Qed.

Lemma pad_zero_slots (dY : vec) :
  length dY = 6%nat ->
  length (pad dY) = 10%nat
  /\ forall k, In k [0; 1; 2; 9]%nat -> nth k (pad dY) 0%float = 0%float.
Proof.
  intros HdY. destruct (length_six dY HdY) as (d0 & d1 & d2 & d3 & d4 & d5 & ->).
  split; [ reflexivity | ].
  intros k Hk. simpl in Hk.
  repeat (destruct Hk as [<- | Hk]; [ reflexivity | ]). contradiction.
Qed.

Lemma reachable_invariant (tle_0 : TLE) (tsince new_tol : float) (y_init : vec)
  (state_target : state) (st : loop_state) :
  reachable tle_0 tsince new_tol y_init state_target st ->
  length (st_y0 st) = 10%nat
  /\ nth 9 (st_y0 st) 0%float = 0%float
  /\ forall k, (k < 3)%nat ->
       same_number (nth k y_init 0%float) (nth k (st_y0 st) 0%float).
Proof.
  induction 1 as [next_tle el Hinit | st st' Hr IH Hit].
  - apply initial_guess_shape in Hinit as (Hlen & H9).
    cbn [initial_state st_y0]. repeat split; auto.
    intros k _. apply same_number_refl.
  - destruct IH as (Hlen & H9 & Hsame).
    apply newton_iteration_pass in Hit
      as (F & dY & t & _ & HdY & _ & _ & ->).
    cbn [st_y0].
    apply correction_length in HdY; [ | exact Hlen ].
    destruct (length_six dY HdY) as (d0 & d1 & d2 & d3 & d4 & d5 & ->).
    destruct (length_ten (st_y0 st) Hlen)
      as (a0 & a1 & a2 & a3 & a4 & a5 & a6 & a7 & a8 & a9 & E).
    rewrite E in *. cbn in H9. subst a9.
    split; [ reflexivity | ]. split; [ reflexivity | ].
    intros k Hk. specialize (Hsame k Hk).
    destruct k as [ | [ | [ | k]]]; [ | | | lia ]; cbn in *;
      apply same_number_add_zero; exact Hsame.
Qed.

(** C3.  In every pass of the loop the six gradients, stacked, are a 6x10
    matrix, and the reduced Jacobian is this matrix without its columns 0,
    1, 2 and 9: six rows of the six entries 3 to 8. *)
Theorem jacobian_drops_columns (tle_0 : TLE) (tsince new_tol : float)
  (y_init : vec) (state_target : state) (st : loop_state) :
  reachable tle_0 tsince new_tol y_init state_target st ->
  let G := stacked_gradients (st_next_tle st) (st_y0 st) in
  length G = 6%nat
  /\ Forall (fun g => length g = 10%nat) G
  /\ drop_columns G
     = map (fun g => [nth 3 g 0%float; nth 4 g 0%float; nth 5 g 0%float;
                      nth 6 g 0%float; nth 7 g 0%float; nth 8 g 0%float]) G
  /\ length (drop_columns G) = 6%nat
  /\ Forall (fun row => length row = 6%nat) (drop_columns G).
Proof.
  intros Hr G.
  destruct (reachable_invariant _ _ _ _ _ _ Hr) as (Hlen & _).
  destruct (stacked_gradients_shape (st_next_tle st) (st_y0 st) Hlen) as (H6 & H10).
  fold G in H6, H10.
  split; [ exact H6 | ]. split; [ exact H10 | ].
  rewrite (drop_columns_ten G H10).
  split; [ reflexivity | ]. split.
  - rewrite length_map. exact H6.
  - apply Forall_map. apply Forall_forall. reflexivity.
Qed.

(** C5.  In every pass of the loop the parameter vector has ten entries,
    its slot 9 is exactly 0 and its slots 0 to 2 are the numbers of the
    initial guess; and the padded correction computed in the pass has ten
    entries, exactly 0 in the slots 0, 1, 2 and 9. *)
Theorem zero_padding (tle_0 : TLE) (tsince new_tol : float) (y_init : vec)
  (state_target : state) (st : loop_state) :
  reachable tle_0 tsince new_tol y_init state_target st ->
  (length (st_y0 st) = 10%nat
   /\ nth 9 (st_y0 st) 0%float = 0%float
   /\ forall k, (k < 3)%nat ->
        same_number (nth k y_init 0%float) (nth k (st_y0 st) 0%float))
  /\ forall F dY,
       gauss_newton (drop_columns (stacked_gradients (st_next_tle st) (st_y0 st))) F
       = Ok dY ->
       length (pad dY) = 10%nat
       /\ forall k, In k [0; 1; 2; 9]%nat -> nth k (pad dY) 0%float = 0%float.
Proof.
  intros Hr. pose proof (reachable_invariant _ _ _ _ _ _ Hr) as Hinv'.
  split; [ exact Hinv' | ].
  intros F dY HdY. apply pad_zero_slots.
  apply (correction_length (st_next_tle st) (st_y0 st) F dY); [ tauto | exact HdY ].
Qed.

Lemma newton_loop_returns (tle_0 : TLE) (tsince new_tol : float) (y_init : vec)
  (state_target : state) (max_iter : Z) (fuel : nat) (st : loop_state)
  (o : outcome) :
  reachable tle_0 tsince new_tol y_init state_target st ->
  newton_loop fuel new_tol max_iter state_target st = Ok o ->
  exists st',
    reachable tle_0 tsince new_tol y_init state_target st'
    /\ returned o = (st_next_tle st', st_y0 st').
Proof.
  revert st. induction fuel as [ | fuel IH]; intros st Hr H; cbn [newton_loop] in H.
  - exists st. split; [ exact Hr | ].
    destruct (loop_condition new_tol max_iter st); injection H as <-; reflexivity.
  - destruct (loop_condition new_tol max_iter st);
      [ | exists st; split; [ exact Hr | injection H as <-; reflexivity ] ].
    destruct (newton_iteration new_tol state_target st) as [[o' | st'] | e] eqn:Hit;
      [ | | discriminate H ].
    + injection H as <-. exists st. split; [ exact Hr | ].
      unfold newton_iteration in Hit.
      destruct (residual _ _ _); [ | discriminate Hit ]. cbn [bind] in Hit.
      destruct (gauss_newton _ _); [ | discriminate Hit ]. cbn [bind] in Hit.
      destruct (_ <? _)%float.
      * injection Hit as <-. reflexivity.
      * destruct (update_TLE _ _); discriminate Hit.
    + apply (IH st'); [ | exact H ].
      apply (reach_pass _ _ _ _ _ st st' Hr Hit).
Qed.

(** The vector [newton_method] returns keeps the padding. *)
Lemma newton_method_returns_padded (tle_0 : TLE) (tsince new_tol : float)
  (max_iter : Z) (o : outcome) :
  newton_method tle_0 tsince new_tol max_iter = Ok o ->
  exists y_init state_target next_tle tle_elements_0,
    initial_guess tle_0 tsince = Ok (y_init, state_target, next_tle, tle_elements_0)
    /\ length (snd (returned o)) = 10%nat
    /\ nth 9 (snd (returned o)) 0%float = 0%float
    /\ forall k, (k < 3)%nat ->
         same_number (nth k y_init 0%float) (nth k (snd (returned o)) 0%float).
Proof.
  unfold newton_method. intros H.
  destruct (initial_guess tle_0 tsince) as [[[[y0 tg] t] el] | e] eqn:Hinit;
    [ | discriminate H ].
  cbn [bind] in H.
  destruct (newton_loop_returns tle_0 tsince new_tol y0 tg max_iter _ _ o
              (reach_init tle_0 tsince new_tol y0 tg t el Hinit) H)
    as (st' & Hr & Hret).
  exists y0, tg, t, el. split; [ reflexivity | ].
  rewrite Hret. cbn [snd]. apply (reachable_invariant _ _ _ _ _ _ Hr).
Qed.

End Invariant.

(** ** The concrete collaborators have the shapes assumed *)

Lemma unit_like_length (x : vec) (k : nat) : length (Stub.unit_like x k) = length x.
Proof. unfold Stub.unit_like. rewrite length_map, length_seq. reflexivity. Qed.

Lemma linear_backward_shape (bias : float) : @backward_shape (Stub.linear bias).
Proof. intros a b x t s. apply unit_like_length. Qed.

Lemma gauss_jordan_length (ks : list nat) (m m' : matrix) :
  Stub.gauss_jordan ks m = Ok m' -> length m' = length m.
Proof.
  revert m. induction ks as [ | k ks IH]; intros m H; cbn [Stub.gauss_jordan] in H.
  - injection H as <-. reflexivity.
  - destruct (_ =? _)%float; [ discriminate H | ].
    apply IH in H. rewrite H.
    unfold Stub.eliminate, Stub.swap_rows.
    rewrite !length_map, !length_seq. reflexivity.
Qed.

Lemma inverse_shape (m m' : matrix) :
  Stub.inverse m = Ok m' -> length m' = length m.
Proof.
  unfold Stub.inverse. intros H.
  destruct (Stub.gauss_jordan _ _) as [r | e] eqn:E; [ | discriminate H ].
  cbn [bind] in H. injection H as <-.
  apply gauss_jordan_length in E.
  rewrite length_map, E, length_map, length_seq. reflexivity.
Qed.

Lemma world_inv_shape prop grad (bias : float) :
  @inv_shape (Stub.world prop grad bias).
Proof. intros m m'. apply inverse_shape. Qed.

(** The loop variables after one pass, for the linear propagator. *)
Lemma reachable_after_one_pass :
  exists st,
    @reachable Stub.linear_half Stub.tle_0 10%float Stub.default_tol (Stub.seed_y0 Stub.linear_half)
      Stub.target_0 st
    /\ st_i st = 1%Z
    /\ st_tol st = 0.5%float.
Proof.
  set (C := Stub.linear_half). eexists. split.
  - eapply reach_pass.
    + eapply reach_init. exact guess_linear.
    + vm_compute. reflexivity.
  - split; reflexivity.
Qed.

(** [jacobian_drops_columns] at the start of the loop. *)
Lemma jacobian_drops_columns_witness :
  let G := @stacked_gradients Stub.linear_half (Stub.seed_tle Stub.linear_half) (Stub.seed_y0 Stub.linear_half) in
  length (drop_columns G) = 6%nat
  /\ Forall (fun row => length row = 6%nat) (drop_columns G).
Proof.
  set (C := Stub.linear_half). intros G.
  destruct (@jacobian_drops_columns C (linear_backward_shape 0.5)
              (world_inv_shape _ _ 0.5) Stub.tle_0 10%float Stub.default_tol
              (Stub.seed_y0 C) Stub.target_0
              (initial_state (Stub.seed_y0 C) (Stub.seed_tle C))
              (reach_init _ _ _ _ _ _ _ guess_linear))
    as (_ & _ & _ & Hrows & Hcols).
  split; [ exact Hrows | exact Hcols ].
Defined.

(** [zero_padding] at the start of the loop. *)
Lemma zero_padding_witness :
  nth 9 (Stub.seed_y0 Stub.linear_half) 0%float = 0%float
  /\ same_number (nth 0 (Stub.seed_y0 Stub.linear_half) 0%float) (nth 0 (Stub.seed_y0 Stub.linear_half) 0%float).
Proof.
  set (C := Stub.linear_half).
  destruct (@zero_padding C (linear_backward_shape 0.5)
              (world_inv_shape _ _ 0.5) Stub.tle_0 10%float Stub.default_tol
              (Stub.seed_y0 C) Stub.target_0
              (initial_state (Stub.seed_y0 C) (Stub.seed_tle C))
              (reach_init _ _ _ _ _ _ _ guess_linear))
    as ((_ & H9 & Hsame) & _).
  split; [ exact H9 | apply (Hsame 0%nat); lia ].
Defined.

(** A run that converges: the linear propagator, the default tolerance; the
    first pass corrects the eccentricity from 1 to 0.5, the second one finds
    the residual norm at 0 and returns. *)
Example newton_method_converges :
  exists t y,
    @newton_method Stub.linear_half Stub.tle_0 10%float Stub.default_tol 50
    = Ok (SolutionFound 1 t y)
    /\ nth 3 y 0%float = 0.5%float
    /\ y = [0.25; 0.125; 0; 0.5; 2.25; 0.75; 3;
            no_kozai_of_mean_motion 0.0625; 1.5; 0]%float.
Proof.
  eexists. eexists. split; [ vm_compute; reflexivity | ].
  split; reflexivity.
Qed.

(** ** Comparisons of binary64 values *)

Lemma SFcompare_antisym (f1 f2 : spec_float) :
  SFcompare f2 f1 = option_map CompOpp (SFcompare f1 f2).
Proof.
  destruct f1 as [s1 | s1 | | s1 m1 e1], f2 as [s2 | s2 | | s2 m2 e2];
    cbn; try reflexivity;
    try (destruct s1; reflexivity); try (destruct s2; reflexivity);
    try (destruct s1, s2; reflexivity).
  change (Pos.compare_cont Eq m1 m2) with (m1 ?= m2)%positive.
  change (Pos.compare_cont Eq m2 m1) with (m2 ?= m1)%positive.
  rewrite (Z.compare_antisym e1 e2), (Pos.compare_antisym m1 m2).
  destruct s1, s2; try reflexivity;
    destruct (e1 ?= e2)%Z; cbn; try reflexivity;
    destruct (m1 ?= m2)%positive; reflexivity.
Qed.

Lemma SFcompare_refl (f : spec_float) :
  f <> S754_nan -> SFcompare f f = Some Eq.
Proof.
  destruct f as [s | s | | s m e]; intros Hf; cbn.
  - reflexivity.
  - destruct s; reflexivity.
  - contradiction Hf. reflexivity.
  - rewrite Z.compare_refl.
    change (Pos.compare_cont Eq m m) with (m ?= m)%positive.
    rewrite Pos.compare_refl. destruct s; reflexivity.
Qed.

Lemma is_nan_spec (x : float) : PrimFloat.is_nan x = true -> Prim2SF x = S754_nan.
Proof.
  unfold PrimFloat.is_nan. rewrite eqb_spec. unfold SFeqb. intros H.
  destruct (Prim2SF x) as [s | s | | s m e] eqn:E; [ | | reflexivity | ];
    rewrite SFcompare_refl in H by discriminate; discriminate H.
Qed.

(** A NaN is neither below nor above anything. *)
Lemma ltb_nan (x y : float) :
  PrimFloat.is_nan x = true -> (x <? y)%float = false /\ (y <? x)%float = false.
Proof.
  intros H. apply is_nan_spec in H. rewrite !ltb_spec, H. unfold SFltb.
  split; [ reflexivity | ].
  destruct (Prim2SF y); reflexivity.
Qed.

(** Two values that [==] finds equal are neither below nor above each
    other. *)
Lemma ltb_eqb (x y : float) :
  (x =? y)%float = true -> (x <? y)%float = false /\ (y <? x)%float = false.
Proof.
  rewrite eqb_spec, !ltb_spec. unfold SFeqb, SFltb.
  rewrite (SFcompare_antisym (Prim2SF x) (Prim2SF y)).
  destruct (SFcompare (Prim2SF x) (Prim2SF y)) as [[ | | ] | ];
    intros H; try discriminate H; split; reflexivity.
Qed.

(** [y <= x] leaves no room for [x < y]. *)
Lemma ltb_leb (x y : float) :
  (y <=? x)%float = true -> (x <? y)%float = false.
Proof.
  rewrite leb_spec, ltb_spec. unfold SFleb, SFltb.
  rewrite (SFcompare_antisym (Prim2SF y) (Prim2SF x)).
  destruct (SFcompare (Prim2SF y) (Prim2SF x)) as [[ | | ] | ];
    intros H; try discriminate H; reflexivity.
Qed.

(** ** Contracts of [initial_guess] and [update_TLE] *)

Section Contracts.
Context {C : Collaborators}.

Lemma initial_guess_seed (tle_0 : TLE) (tsince : float) (y0 : vec)
  (state_target : state) (new_tle : TLE) (tle_elements_0 : tle_elements) :
  initial_guess tle_0 tsince = Ok (y0, state_target, new_tle, tle_elements_0) ->
  metadata new_tle = metadata tle_0
  /\ exists new_date,
       shifted_date tle_0 tsince = Ok new_date
       /\ epoch_year new_tle = year new_date
       /\ epoch_days new_tle = from_datetime_to_fractional_day new_date.
Proof.
  unfold initial_guess, shifted_date. intros H.
  destruct (sgp4 tle_0 (tsince * 1)%float) as [s | e]; [ | discriminate H ].
  cbn [bind] in H.
  destruct (from_cartesian_to_tle_elements _) as [k | e]; [ | discriminate H ].
  cbn [bind] in H.
  destruct (from_year_day_to_date _ _) as [date_0 | e]; [ | discriminate H ].
  cbn [bind] in H |- *.
  destruct (add_days _ _) as [new_date | e]; [ | discriminate H ].
  cbn [bind] in H. unfold kessler_tle_TLE in H.
  destruct (tle_valid _); [ | discriminate H ].
  cbn [bind] in H. injection H as _ _ <- _.
  split; [ reflexivity | ]. exists new_date. repeat split.
Qed.

(** X1.  What [initial_guess] returns: the target is the state [sgp4] gives
    for [tle_0] at [tsince]; the record is the object the constructor built
    from the returned dictionary, which it accepted; the six classical
    elements of the dictionary are those the elements conversion gives for
    the target in metres; its drag term and the rest of its metadata are
    those of [tle_0]; its epoch is that of [tle_0] moved by [tsince]
    minutes, which [datetime] could hold; and the parameter vector is the
    nine derived attributes of the record followed by 0. *)
Theorem initial_guess_returns (tle_0 : TLE) (tsince : float) (y0 : vec)
  (state_target : state) (new_tle : TLE) (tle_elements_0 : tle_elements) :
  initial_guess tle_0 tsince = Ok (y0, state_target, new_tle, tle_elements_0) ->
  sgp4 tle_0 (tsince * 1)%float = Ok state_target
  /\ (exists k, from_cartesian_to_tle_elements (scale state_target 1e3%float) = Ok k
                /\ classical tle_elements_0 = classical_of k)
  /\ tle_valid tle_elements_0 = true
  /\ new_tle = tle_object tle_elements_0
  /\ b_star tle_elements_0 = b_star tle_0
  /\ metadata tle_elements_0 = metadata tle_0
  /\ (exists new_date,
        shifted_date tle_0 tsince = Ok new_date
        /\ epoch_year tle_elements_0 = year new_date
        /\ epoch_days tle_elements_0 = from_datetime_to_fractional_day new_date)
  /\ y0 = [ _bstar (internal new_tle); _ndot (internal new_tle);
            _nddot (internal new_tle); _ecco (internal new_tle);
            _argpo (internal new_tle); _inclo (internal new_tle);
            _mo (internal new_tle); _no_kozai (internal new_tle);
            _nodeo (internal new_tle); 0%float ].
Proof.
  unfold initial_guess, shifted_date. intros H.
  destruct (sgp4 tle_0 (tsince * 1)%float) as [s | e]; [ | discriminate H ].
  cbn [bind] in H.
  destruct (from_cartesian_to_tle_elements _) as [k | e] eqn:Hk; [ | discriminate H ].
  cbn [bind] in H.
  destruct (from_year_day_to_date _ _) as [date_0 | e]; [ | discriminate H ].
  cbn [bind] in H |- *.
  destruct (add_days _ _) as [new_date | e]; [ | discriminate H ].
  cbn [bind] in H. unfold kessler_tle_TLE in H.
  destruct (tle_valid _) eqn:Hv; [ | discriminate H ].
  cbn [bind] in H. injection H as <- <- <- <-.
  split; [ reflexivity | ].
  split; [ exists k; split; [ exact Hk | reflexivity ] | ].
  split; [ exact Hv | ].
  split; [ reflexivity | ]. split; [ reflexivity | ]. split; [ reflexivity | ].
  split; [ exists new_date; repeat split | reflexivity ].
Qed.

(** X2.  The last update wins: updating the result of [update_TLE T y]
    with [y'] is updating [T] with [y'], errors included. *)
Theorem update_TLE_last_wins (T T1 : TLE) (y y' : vec) :
  update_TLE T y = Ok T1 ->
  update_TLE T1 y' = update_TLE T y'.
Proof.
  intros H. apply update_TLE_Ok in H as (_ & _ & ->).
  destruct (Nat.le_gt_cases 9 (length y')) as [Hy | Hy].
  - rewrite !(update_TLE_long _ y' Hy). reflexivity.
  - rewrite !(update_TLE_short _ y' Hy). reflexivity.
Qed.

(** X3.  Padding undoes the dropping of columns: the rows padded to ten
    entries, without their columns 0, 1, 2 and 9, are the rows; so the
    entry [j] of the correction lands in the slot whose gradient is the
    column [j] of the reduced Jacobian. *)
Theorem drop_columns_pad (M : matrix) :
  drop_columns (map pad M) = M
  /\ forall dY j, (j < length dY)%nat ->
       nth (3 + j) (pad dY) 0%float = nth j dY 0%float.
Proof.
  split.
  - unfold drop_columns. rewrite !map_map.
    induction M as [ | dY M IH]; [ reflexivity | ].
    cbn [map]. rewrite IH. f_equal.
    unfold pad. cbn [app skipn]. apply removelast_last.
  - intros dY j Hj. unfold pad. cbn [app Nat.add nth].
    apply app_nth1. exact Hj.
Qed.

End Contracts.

(** [initial_guess_returns] on the run of the linear propagator. *)
Lemma initial_guess_returns_witness :
  @sgp4 Stub.linear_half Stub.tle_0 (10 * 1)%float = Ok Stub.target_0
  /\ metadata (Stub.seed_tle Stub.linear_half) = metadata Stub.tle_0
  /\ nth 9 (Stub.seed_y0 Stub.linear_half) 0%float = 0%float.
Proof.
  destruct (@initial_guess_returns Stub.linear_half Stub.tle_0 10%float
              (Stub.seed_y0 Stub.linear_half) Stub.target_0
              (Stub.seed_tle Stub.linear_half)
              (data (Stub.seed_tle Stub.linear_half)) guess_linear)
    as (Hs & _ & _ & _ & _ & Hm & _ & Hy).
  split; [ exact Hs | ]. split; [ exact Hm | ].
  rewrite Hy. reflexivity.
Defined.

(** [update_TLE_last_wins]: [tle_0] updated with [y_example], then with the
    vector that is not finite. *)
Lemma update_TLE_last_wins_witness :
  @update_TLE Stub.linear_half
    (@tle_object Stub.linear_half (elements_from Stub.tle_0 Stub.y_example))
    Stub.y_not_finite
  = @update_TLE Stub.linear_half Stub.tle_0 Stub.y_not_finite.
Proof.
  apply (@update_TLE_last_wins Stub.linear_half Stub.tle_0
           (@tle_object Stub.linear_half (elements_from Stub.tle_0 Stub.y_example))
           Stub.y_example Stub.y_not_finite).
  reflexivity.
Defined.

(** [drop_columns_pad] on a correction of six entries. *)
Lemma drop_columns_pad_witness :
  nth (3 + 5) (pad [1; 2; 3; 4; 5; 6]%float) 0%float = 6%float.
Proof.
  rewrite (proj2 (drop_columns_pad []) [1; 2; 3; 4; 5; 6]%float 5%nat).
  - reflexivity.
  - simpl. lia.
Defined.

(** ** Contracts of [newton_method] *)

Section Outcomes.
Context {C : Collaborators}.

Lemma newton_loop_stop (fuel : nat) (new_tol : float) (max_iter : Z)
  (state_target : state) (st : loop_state) :
  loop_condition new_tol max_iter st = false ->
  newton_loop fuel new_tol max_iter state_target st
  = Ok (LoopEnded (st_i st) (st_next_tle st) (st_y0 st)).
Proof.
  intros Hc. destruct fuel; cbn [newton_loop]; rewrite Hc; reflexivity.
Qed.

(** What a pass that ends in the [return] of the loop has computed. *)
Lemma newton_iteration_found (new_tol : float) (state_target : state)
  (st : loop_state) (o : outcome) :
  newton_iteration new_tol state_target st = Ok (inl o) ->
  o = SolutionFound (st_i st) (st_next_tle st) (st_y0 st)
  /\ exists F,
       residual state_target (st_next_tle st) (st_y0 st) = Ok F
       /\ (norm F <? new_tol)%float = true.
Proof.
  unfold newton_iteration. intros H.
  destruct (residual state_target (st_next_tle st) (st_y0 st)) as [F | e];
    [ | discriminate H ].
  cbn [bind] in H.
  destruct (gauss_newton _ F) as [dY | e]; [ | discriminate H ].
  cbn [bind] in H.
  destruct (norm F <? new_tol)%float eqn:Htol.
  - injection H as <-. split; [ reflexivity | ]. exists F. auto.
  - destruct (update_TLE _ _); discriminate H.
Qed.

(** Where an outcome of the loop comes from: loop variables reached from
    the ones the loop is started with. *)
Lemma newton_loop_outcome (tle_0 : TLE) (tsince new_tol : float) (y_init : vec)
  (state_target : state) (max_iter : Z) (fuel : nat) (st : loop_state)
  (o : outcome) :
  reachable tle_0 tsince new_tol y_init state_target st ->
  newton_loop fuel new_tol max_iter state_target st = Ok o ->
  exists st',
    reachable tle_0 tsince new_tol y_init state_target st'
    /\ (st_i st <= st_i st')%Z
    /\ returned o = (st_next_tle st', st_y0 st')
    /\ iterations o = st_i st'
    /\ match o with
       | SolutionFound _ t y =>
           (st_i st' < max_iter)%Z
           /\ exists F, residual state_target t y = Ok F
                        /\ (norm F <? new_tol)%float = true
       | LoopEnded _ _ _ => (st_i st' <= Z.max (st_i st) max_iter)%Z
       end.
Proof.
  revert st. induction fuel as [ | fuel IH]; intros st Hr H; cbn [newton_loop] in H.
  - exists st. split; [ exact Hr | ]. split; [ lia | ].
    destruct (loop_condition new_tol max_iter st); injection H as <-;
      cbn; repeat split; lia.
  - destruct (loop_condition new_tol max_iter st) eqn:Hc.
    + apply loop_condition_true in Hc as [Hi Htol].
      destruct (newton_iteration new_tol state_target st) as [[o' | st'] | e] eqn:Hit;
        [ | | discriminate H ].
      * injection H as <-.
        apply newton_iteration_found in Hit as (-> & F & HF & HlF).
        exists st. split; [ exact Hr | ]. split; [ lia | ].
        cbn. repeat split; [ exact Hi | ]. exists F. auto.
      * pose proof (newton_iteration_i _ _ _ _ Hit) as Hi'.
        destruct (IH st' (reach_pass _ _ _ _ _ st st' Hr Hit) H)
          as (st'' & Hr'' & Hle & Hret & Hiter & Ho).
        exists st''. split; [ exact Hr'' | ]. split; [ lia | ].
        split; [ exact Hret | ]. split; [ exact Hiter | ].
        destruct o; [ exact Ho | lia ].
    + injection H as <-. exists st. split; [ exact Hr | ].
      cbn. repeat split; lia.
Qed.

Lemma newton_method_outcome (tle_0 : TLE) (tsince new_tol : float)
  (max_iter : Z) (o : outcome) :
  newton_method tle_0 tsince new_tol max_iter = Ok o ->
  exists y_init state_target seed tle_elements_0 st,
    initial_guess tle_0 tsince = Ok (y_init, state_target, seed, tle_elements_0)
    /\ reachable tle_0 tsince new_tol y_init state_target st
    /\ (0 <= st_i st)%Z
    /\ returned o = (st_next_tle st, st_y0 st)
    /\ iterations o = st_i st
    /\ match o with
       | SolutionFound _ t y =>
           (st_i st < max_iter)%Z
           /\ exists F, residual state_target t y = Ok F
                        /\ (norm F <? new_tol)%float = true
       | LoopEnded _ _ _ => (st_i st <= Z.max 0 max_iter)%Z
       end.
Proof.
  unfold newton_method. intros H.
  destruct (initial_guess tle_0 tsince) as [[[[y0 tg] t] el] | e] eqn:Hinit;
    [ | discriminate H ].
  cbn [bind] in H.
  destruct (newton_loop_outcome tle_0 tsince new_tol y0 tg max_iter _ _ o
              (reach_init tle_0 tsince new_tol y0 tg t el Hinit) H)
    as (st & Hr & Hle & Hret & Hiter & Ho).
  cbn [initial_state st_i] in Hle, Ho.
  exists y0, tg, t, el, st. auto 10.
Qed.

(** X4.  With [max_iter <= 0], with a tolerance that is NaN, or with a
    tolerance of [1e9] or more, [newton_method] returns the initial guess
    as it is (or the exception of [initial_guess]): the loop is not
    entered. *)
Theorem newton_method_degenerate (tle_0 : TLE) (tsince new_tol : float)
  (max_iter : Z) :
  (max_iter <= 0)%Z \/ PrimFloat.is_nan new_tol = true
  \/ (1e9 <=? new_tol)%float = true ->
  newton_method tle_0 tsince new_tol max_iter
  = bind (initial_guess tle_0 tsince)
      (fun g => let '(y0, _, next_tle, _) := g in Ok (LoopEnded 0 next_tle y0)).
Proof.
  intros H. unfold newton_method.
  destruct (initial_guess tle_0 tsince) as [[[[y0 tg] t] el] | e];
    [ | reflexivity ].
  cbn [bind]. apply newton_loop_stop.
  unfold loop_condition. cbn [initial_state st_i st_tol].
  destruct H as [H | [H | H]].
  - apply andb_false_iff. left. apply Z.ltb_ge. exact H.
  - apply andb_false_iff. right. apply (ltb_nan new_tol 1e9%float H).
  - apply andb_false_iff. right. apply ltb_leb. exact H.
Qed.


(** X6.  A result returned from inside the loop meets the tolerance: the
    propagator, run on the returned vector and the returned record, is
    within [new_tol] of the target that [initial_guess] computed. *)
Theorem solution_found_meets_tolerance (tle_0 : TLE) (tsince new_tol : float)
  (max_iter i : Z) (next_tle : TLE) (y0 : vec) :
  newton_method tle_0 tsince new_tol max_iter = Ok (SolutionFound i next_tle y0) ->
  exists y_init state_target seed tle_elements_0 F,
    initial_guess tle_0 tsince = Ok (y_init, state_target, seed, tle_elements_0)
    /\ residual state_target next_tle y0 = Ok F
    /\ (norm F <? new_tol)%float = true.
Proof.
  intros H.
  apply newton_method_outcome in H
    as (y_init & tg & t & el & st & Hinit & _ & _ & _ & _ & _ & F & HF & Htol).
  exists y_init, tg, t, el, F. auto.
Qed.

(** X7.  A pass whose residual norm equals the tolerance, or is NaN, is
    neither a solution nor a reason to go on: the correction is applied,
    the record rebuilt, and the loop ends on its condition with the
    corrected pair and [i + 1]. *)
Theorem newton_loop_at_tolerance (fuel : nat) (new_tol : float) (max_iter : Z)
  (state_target : state) (st : loop_state) (F dY : vec) (next_tle : TLE) :
  (Z.to_nat (max_iter - st_i st) <= fuel)%nat ->
  loop_condition new_tol max_iter st = true ->
  residual state_target (st_next_tle st) (st_y0 st) = Ok F ->
  gauss_newton (drop_columns (stacked_gradients (st_next_tle st) (st_y0 st))) F
  = Ok dY ->
  update_TLE (st_next_tle st) (add_zip (st_y0 st) (pad dY)) = Ok next_tle ->
  (norm F =? new_tol)%float = true \/ PrimFloat.is_nan (norm F) = true ->
  newton_loop fuel new_tol max_iter state_target st
  = Ok (LoopEnded (st_i st + 1) next_tle (add_zip (st_y0 st) (pad dY))).
Proof.
  intros Hfuel Hc HF HdY Ht Htol.
  assert (Hlt : (norm F <? new_tol)%float = false /\ (new_tol <? norm F)%float = false)
    by (destruct Htol as [Heq | Hnan]; [ apply ltb_eqb | apply ltb_nan ]; assumption).
  destruct Hlt as [Hbelow Habove].
  rewrite (newton_loop_while new_tol max_iter state_target fuel st Hfuel), Hc.
  unfold newton_iteration. rewrite HF. cbn [bind]. rewrite HdY. cbn [bind].
  rewrite Hbelow, Ht. cbn [bind].
  apply newton_loop_stop.
  unfold loop_condition. cbn [st_i st_tol]. rewrite Habove.
  apply andb_false_r.
Qed.

End Outcomes.

(** ** What the loop keeps of the records *)

Section Records.
Context {C : Collaborators}.

Lemma reachable_records (tle_0 : TLE) (tsince new_tol : float) (y_init : vec)
  (state_target : state) (st : loop_state) :
  reachable tle_0 tsince new_tol y_init state_target st ->
  (0 <= st_i st)%Z
  /\ (0 < st_i st -> agrees (st_next_tle st) (st_y0 st))%Z
  /\ metadata (st_next_tle st) = metadata tle_0
  /\ exists new_date,
       shifted_date tle_0 tsince = Ok new_date
       /\ epoch_year (st_next_tle st) = year new_date
       /\ epoch_days (st_next_tle st) = from_datetime_to_fractional_day new_date.
Proof.
  induction 1 as [next_tle el Hinit | st st' Hr IH Hit].
  - apply initial_guess_seed in Hinit as (Hm & Hd).
    cbn [initial_state st_i st_next_tle st_y0].
    split; [ lia | ]. split; [ lia | ]. auto.
  - destruct IH as (Hi & _ & Hm & new_date & Hs & Hy & Hd).
    apply newton_iteration_pass in Hit as (F & dY & t & _ & _ & _ & Ht & ->).
    cbn [st_i st_next_tle st_y0].
    pose proof (update_TLE_Ok _ _ _ Ht) as (Hlen & Hv & ->).
    split; [ lia | ]. split; [ | split ].
    + intros _. unfold agrees.
      rewrite (update_TLE_long _ _ Hlen).
      rewrite (elements_from_fixed _ (st_next_tle st) _) by reflexivity.
      unfold kessler_tle_TLE. rewrite Hv. reflexivity.
    + exact Hm.
    + exists new_date. auto.
Qed.

(** X9.  After one update or more, the record and the vector that
    [newton_method] returns go together: the record is the object the TLE
    constructor builds from the dictionary that [update_TLE] writes from the
    returned vector, so that updating the returned record with the returned
    vector gives the returned record back. *)
Theorem returned_record_agrees (tle_0 : TLE) (tsince new_tol : float)
  (max_iter : Z) (o : outcome) :
  newton_method tle_0 tsince new_tol max_iter = Ok o ->
  (1 <= iterations o)%Z ->
  update_TLE (fst (returned o)) (snd (returned o)) = Ok (fst (returned o))
  /\ fst (returned o)
     = tle_object (elements_from (fst (returned o)) (snd (returned o))).
Proof.
  intros H Hi.
  apply newton_method_outcome in H
    as (y0 & tg & t & el & st & _ & Hr & _ & Hret & Hiter & _).
  rewrite Hret. cbn [fst snd].
  assert (Ha : agrees (st_next_tle st) (st_y0 st))
    by (apply (reachable_records _ _ _ _ _ _ Hr); lia).
  split; [ exact Ha | ].
  apply update_TLE_Ok in Ha. apply Ha.
Qed.

(** X10.  The record [newton_method] returns has the mean-motion
    derivatives, the classification, the designator, the catalog number,
    the ephemeris type, the element number and the revolution number of
    [tle_0], and as epoch that of [tle_0] moved by [tsince] minutes. *)
Theorem newton_method_keeps_metadata (tle_0 : TLE) (tsince new_tol : float)
  (max_iter : Z) (o : outcome) :
  newton_method tle_0 tsince new_tol max_iter = Ok o ->
  metadata (fst (returned o)) = metadata tle_0
  /\ exists new_date,
       shifted_date tle_0 tsince = Ok new_date
       /\ epoch_year (fst (returned o)) = year new_date
       /\ epoch_days (fst (returned o)) = from_datetime_to_fractional_day new_date.
Proof.
  intros H.
  apply newton_method_outcome in H
    as (y0 & tg & t & el & st & _ & Hr & _ & Hret & _ & _).
  rewrite Hret. cbn [fst].
  apply (reachable_records _ _ _ _ _ _ Hr).
Qed.

End Records.

(** ** The parameter vector is never indexed out of range *)

Section Indexing.
Context {C : Collaborators}.
Hypothesis Hback : backward_shape.
Hypothesis Hinv : inv_shape.

Lemma corrected_length (next_tle : TLE) (y0 F dY : vec) :
  length y0 = 10%nat ->
  gauss_newton (jacobian next_tle y0) F = Ok dY ->
  length (add_zip y0 (pad dY)) = 10%nat.
Proof.
  intros Hy HdY.
  apply (correction_length Hback Hinv) in HdY; [ | exact Hy ].
  destruct (length_six dY HdY) as (d0 & d1 & d2 & d3 & d4 & d5 & ->).
  destruct (length_ten y0 Hy)
    as (a0 & a1 & a2 & a3 & a4 & a5 & a6 & a7 & a8 & a9 & ->).
  reflexivity.
Qed.

(** X8.  In every pass of the loop the vector handed to [update_TLE] has
    ten entries, so the call never leaves with an [IndexError]: it is the
    TLE constructor's answer to the dictionary written from the corrected
    vector, and the only exception it can raise is the constructor's. *)
Theorem loop_update_in_range (tle_0 : TLE) (tsince new_tol : float)
  (y_init : vec) (state_target : state) (st : loop_state) (F dY : vec) :
  reachable tle_0 tsince new_tol y_init state_target st ->
  gauss_newton (drop_columns (stacked_gradients (st_next_tle st) (st_y0 st))) F
  = Ok dY ->
  length (add_zip (st_y0 st) (pad dY)) = 10%nat
  /\ update_TLE (st_next_tle st) (add_zip (st_y0 st) (pad dY))
     = kessler_tle_TLE
         (elements_from (st_next_tle st) (add_zip (st_y0 st) (pad dY)))
  /\ update_TLE (st_next_tle st) (add_zip (st_y0 st) (pad dY)) <> Raise IndexError.
Proof.
  intros Hr HdY.
  destruct (reachable_invariant Hback Hinv _ _ _ _ _ _ Hr) as (Hlen & _).
  pose proof (corrected_length _ _ _ _ Hlen HdY) as Hlen'.
  split; [ exact Hlen' | ].
  assert (E : update_TLE (st_next_tle st) (add_zip (st_y0 st) (pad dY))
              = kessler_tle_TLE
                  (elements_from (st_next_tle st) (add_zip (st_y0 st) (pad dY))))
    by (apply update_TLE_long; lia).
  split; [ exact E | ].
  rewrite E. unfold kessler_tle_TLE.
  destruct (tle_valid _); discriminate.
Qed.

End Indexing.

(** ** Runs for the contracts *)

Lemma run_found :
  @newton_method Stub.linear_half Stub.tle_0 10%float Stub.default_tol 50
  = Ok (SolutionFound 1 Run.found_tle Run.found_y0).
Proof. vm_compute. reflexivity. Qed.

(** [newton_method_degenerate] with a tolerance that is NaN. *)
Lemma newton_method_degenerate_witness :
  @newton_method Stub.linear_half Stub.tle_0 10%float nan 50
  = Ok (LoopEnded 0 (Stub.seed_tle Stub.linear_half)
          (Stub.seed_y0 Stub.linear_half)).
Proof.
  rewrite (@newton_method_degenerate Stub.linear_half Stub.tle_0 10%float nan 50).
  - rewrite guess_linear. reflexivity.
  - right. left. reflexivity.
Defined.


(** [solution_found_meets_tolerance] on the run that converges. *)
Lemma solution_found_meets_tolerance_witness :
  exists y_init state_target seed tle_elements_0 F,
    @initial_guess Stub.linear_half Stub.tle_0 10%float
    = Ok (y_init, state_target, seed, tle_elements_0)
    /\ @residual Stub.linear_half state_target Run.found_tle Run.found_y0 = Ok F
    /\ (norm F <? Stub.default_tol)%float = true.
Proof.
  exact (@solution_found_meets_tolerance Stub.linear_half Stub.tle_0 10%float
           Stub.default_tol 50 1 Run.found_tle Run.found_y0 run_found).
Defined.

(** [newton_loop_at_tolerance] with the tolerance 0.5, which the residual
    norm of the first pass equals. *)
Lemma newton_loop_at_tolerance_witness :
  @newton_loop Stub.linear_half 50 0.5%float 50 Stub.target_0
    (initial_state (Stub.seed_y0 Stub.linear_half) (Stub.seed_tle Stub.linear_half))
  = Ok (LoopEnded 1 (st_next_tle Run.after_one_pass) (st_y0 Run.after_one_pass)).
Proof.
  rewrite (@newton_loop_at_tolerance Stub.linear_half 50 0.5%float 50
             Stub.target_0
             (initial_state (Stub.seed_y0 Stub.linear_half)
                            (Stub.seed_tle Stub.linear_half))
             [0.5; 0; 0; 0; 0; 0]%float
             [-0.5; -0; -0; -0; -0; -0]%float
             (st_next_tle Run.after_one_pass)).
  - reflexivity.
  - vm_compute. lia.
  - reflexivity.
  - reflexivity.
  - vm_compute. reflexivity.
  - vm_compute. reflexivity.
  - left. reflexivity.
Defined.

(** The NaN case of [newton_loop_at_tolerance], as a run: a propagator
    that answers NaN gives, after one pass, a vector of NaN in the slots 3
    to 8, returned as a value. *)
Example nan_residual_is_returned :
  exists t y,
    @newton_method Run.blind Stub.tle_0 10%float Stub.default_tol 50
    = Ok (LoopEnded 1 t y)
    /\ forallb PrimFloat.is_nan (firstn 6 (skipn 3 y)) = true
    /\ PrimFloat.is_nan (eccentricity t) = true.
Proof.
  eexists. eexists. split; [ vm_compute; reflexivity | ].
  split; reflexivity.
Qed.

(** [loop_update_in_range] at the first pass of the run that converges. *)
Lemma loop_update_in_range_witness :
  @update_TLE Stub.linear_half (Stub.seed_tle Stub.linear_half)
    (add_zip (Stub.seed_y0 Stub.linear_half)
       (pad [-0.5; -0; -0; -0; -0; -0]%float))
  <> Raise IndexError.
Proof.
  apply (@loop_update_in_range Stub.linear_half (linear_backward_shape 0.5)
           (world_inv_shape _ _ 0.5) Stub.tle_0 10%float Stub.default_tol
           (Stub.seed_y0 Stub.linear_half) Stub.target_0
           (initial_state (Stub.seed_y0 Stub.linear_half)
                          (Stub.seed_tle Stub.linear_half))
           [0.5; 0; 0; 0; 0; 0]%float [-0.5; -0; -0; -0; -0; -0]%float).
  - apply reach_init with (tle_elements_0 := data (Stub.seed_tle Stub.linear_half)).
    exact guess_linear.
  - vm_compute. reflexivity.
Defined.

(** A propagation time that [datetime] cannot hold: the exception of the
    date arithmetic leaves [initial_guess], and [newton_method] with it. *)
Example tsince_out_of_range :
  @initial_guess Stub.linear_half Stub.tle_0 nan = Raise ValueError
  /\ @newton_method Stub.linear_half Stub.tle_0 nan Stub.default_tol 50
     = Raise ValueError
  /\ @newton_method Stub.linear_half Stub.tle_0 infinity Stub.default_tol 50
     = Raise OverflowError.
Proof. repeat split. Qed.

(** [returned_record_agrees] on the run that converges. *)
Lemma returned_record_agrees_witness :
  @update_TLE Stub.linear_half Run.found_tle Run.found_y0 = Ok Run.found_tle.
Proof.
  apply (@returned_record_agrees Stub.linear_half Stub.tle_0 10%float
           Stub.default_tol 50 (SolutionFound 1 Run.found_tle Run.found_y0)
           run_found).
  simpl. lia.
Defined.

(** [newton_method_keeps_metadata] on the run that converges. *)
Lemma newton_method_keeps_metadata_witness :
  metadata Run.found_tle = metadata Stub.tle_0.
Proof.
  apply (@newton_method_keeps_metadata Stub.linear_half Stub.tle_0 10%float
           Stub.default_tol 50 (SolutionFound 1 Run.found_tle Run.found_y0)
           run_found).
Defined.

(** ** When the loop ends before the budget is spent *)

Section EarlyEnd.
Context {C : Collaborators}.

Lemma newton_loop_ended (tle_0 : TLE) (tsince new_tol : float) (y_init : vec)
  (state_target : state) (max_iter : Z) (fuel : nat) (st : loop_state)
  (i : Z) (t : TLE) (y : vec) :
  (Z.to_nat (max_iter - st_i st) <= fuel)%nat ->
  reachable tle_0 tsince new_tol y_init state_target st ->
  newton_loop fuel new_tol max_iter state_target st = Ok (LoopEnded i t y) ->
  exists st',
    reachable tle_0 tsince new_tol y_init state_target st'
    /\ LoopEnded i t y = LoopEnded (st_i st') (st_next_tle st') (st_y0 st')
    /\ loop_condition new_tol max_iter st' = false.
Proof.
  revert st. induction fuel as [ | fuel IH]; intros st Hfuel Hr H;
    cbn [newton_loop] in H.
  - destruct (loop_condition new_tol max_iter st) eqn:Hc.
    + apply loop_condition_true in Hc. lia.
    + exists st. injection H as <- <- <-. auto.
  - destruct (loop_condition new_tol max_iter st) eqn:Hc.
    + apply loop_condition_true in Hc as [Hi _].
      destruct (newton_iteration new_tol state_target st) as [[o' | st'] | e] eqn:Hit;
        [ | | discriminate H ].
      * injection H as ->.
        apply newton_iteration_found in Hit as (Ho & _). discriminate Ho.
      * pose proof (newton_iteration_i _ _ _ _ Hit) as Hi'.
        apply (IH st'); [ lia | | exact H ].
        apply (reach_pass _ _ _ _ _ st st' Hr Hit).
    + exists st. injection H as <- <- <-. auto.
Qed.

(** X11.  When [newton_method] returns after the loop with fewer than
    [max_iter] updates made, the loop ended on the tolerance: either no
    pass was made because the tolerance is not below [1e9], or the last
    pass found a residual norm neither below nor above the tolerance
    (equal to it, or NaN) and what is returned is its corrected vector. *)
Theorem early_end_is_at_tolerance (tle_0 : TLE) (tsince new_tol : float)
  (max_iter i : Z) (next_tle : TLE) (y0 : vec) :
  newton_method tle_0 tsince new_tol max_iter = Ok (LoopEnded i next_tle y0) ->
  (i < max_iter)%Z ->
  (i = 0%Z /\ (new_tol <? 1e9)%float = false)
  \/ (0 < i)%Z
     /\ exists y_init state_target prev F dY,
          reachable tle_0 tsince new_tol y_init state_target prev
          /\ st_i prev = (i - 1)%Z
          /\ residual state_target (st_next_tle prev) (st_y0 prev) = Ok F
          /\ (norm F <? new_tol)%float = false
          /\ (new_tol <? norm F)%float = false
          /\ gauss_newton (drop_columns (stacked_gradients (st_next_tle prev) (st_y0 prev))) F
             = Ok dY
          /\ y0 = add_zip (st_y0 prev) (pad dY).
Proof.
  unfold newton_method. intros H Hi.
  destruct (initial_guess tle_0 tsince) as [[[[y_init tg] t] el] | e] eqn:Hinit;
    [ | discriminate H ].
  cbn [bind] in H.
  apply (newton_loop_ended tle_0 tsince new_tol y_init tg) in H;
    [ | cbn [initial_state st_i]; lia
      | exact (reach_init tle_0 tsince new_tol y_init tg t el Hinit) ].
  destruct H as (st & Hr & Ho & Hc).
  injection Ho as -> -> ->.
  unfold loop_condition in Hc. apply andb_false_iff in Hc as [Hc | Hc];
    [ apply Z.ltb_ge in Hc; lia | ].
  destruct Hr as [t' el' Hinit' | prev st Hprev Hit].
  - left. split; [ reflexivity | exact Hc ].
  - right.
    apply newton_iteration_pass in Hit
      as (F & dY & t' & HF & HdY & Hbelow & _ & ->).
    cbn [st_i st_tol st_y0] in *.
    assert (H0 : (0 <= st_i prev)%Z)
      by (apply (reachable_records _ _ _ _ _ _ Hprev)).
    split; [ lia | ].
    exists y_init, tg, prev, F, dY.
    split; [ exact Hprev | ]. split; [ lia | ]. auto 10.
Qed.

End EarlyEnd.

Lemma run_at_tolerance :
  @newton_method Stub.linear_half Stub.tle_0 10%float 0.5%float 50
  = Ok (LoopEnded 1 (st_next_tle Run.after_one_pass) (st_y0 Run.after_one_pass)).
Proof. vm_compute. reflexivity. Qed.

(** [early_end_is_at_tolerance] on the run with the tolerance 0.5: the loop
    ended after one update, so a pass is behind it. *)
Lemma early_end_is_at_tolerance_witness :
  exists y_init state_target prev F,
    @reachable Stub.linear_half Stub.tle_0 10%float 0.5%float
      y_init state_target prev
    /\ st_i prev = 0%Z
    /\ @residual Stub.linear_half state_target (st_next_tle prev) (st_y0 prev)
       = Ok F
    /\ (norm F <? 0.5)%float = false
    /\ (0.5 <? norm F)%float = false.
Proof.
  destruct (@early_end_is_at_tolerance Stub.linear_half Stub.tle_0 10%float
              0.5%float 50 1 (st_next_tle Run.after_one_pass)
              (st_y0 Run.after_one_pass) run_at_tolerance)
    as [[H1 _] | (_ & y_init & tg & prev & F & dY & Hr & Hi & HF & Hb & Ha & _)].
  - lia.
  - discriminate H1.
  - exists y_init, tg, prev, F. auto.
Defined.
